(** * comon: the command layer of the COM monitor debugger extension

    A shallow embedding of [src/comon/ext.cpp]: the argument tokenizer
    [split_args], the filter construction [parse_filter] and the exported
    command handlers [cobp], [cobl], [cobd], [coreg], [comon] and
    [DebugExtensionUninitialize], together with the session and monitor
    operations they call. *)

From Stdlib Require Import ZArith Ascii String DecimalString DecimalPos DecimalN.
From stdpp Require Import base gmap sets list strings.

Local Open Scope string_scope.
Local Open Scope list_scope.
Local Open Scope Z_scope.

(** ** Windows result codes *)

Module Win.

Definition HRESULT := Z.

(** An HRESULT is a 32-bit signed value; the failure codes are written in the
    headers as unsigned hexadecimal constants with the top bit set. *)
Definition to_signed32 (z : Z) : Z :=
  let w := z mod 2 ^ 32 in if w <? 2 ^ 31 then w else w - 2 ^ 32.

Definition S_OK : HRESULT := 0.
Definition E_FAIL : HRESULT := Eval cbv in to_signed32 0x80004005.
Definition E_INVALIDARG : HRESULT := Eval cbv in to_signed32 0x80070057.

Definition SUCCEEDED (hr : HRESULT) : bool := 0 <=? hr.
Definition FAILED (hr : HRESULT) : bool := hr <? 0.

(** [GUID] as the Windows headers declare it: a 32-bit field, two 16-bit
    fields and eight bytes. *)
Record GUID := mkGUID { Data1 : Z; Data2 : Z; Data3 : Z; Data4 : list Z }.

#[global] Instance GUID_eq_dec : EqDecision GUID.
Proof. solve_decision. Defined.

#[global] Instance GUID_countable : Countable GUID.
Proof.
  refine (inj_countable'
            (fun g => (Data1 g, Data2 g, Data3 g, Data4 g))
            (fun t => match t with (a, b, c, d) => mkGUID a b c d end) _).
  intros []; reflexivity.
Defined.

Definition CLSID := GUID.
Definition IID := GUID.

(** Wide strings carry the same characters as narrow ones in this model. *)
Definition wstring := string.

End Win.
Export Win.

(** ** The C++ runtime pieces the handlers rely on *)

Module Cxx.

Inductive exception := invalid_argument | out_of_range.

(** What a call that may throw does: it returns a value or an exception
    leaves it. *)
Inductive outcome (A : Type) :=
| Returned (a : A)
| Thrown (e : exception).
Arguments Returned {A} a.
Arguments Thrown {A} e.

Definition char_code (c : ascii) : Z := Z.of_nat (nat_of_ascii c).

(** [std::isspace] in the C locale: space, \t, \n, \v, \f, \r. *)
Definition isspace (c : ascii) : bool :=
  let n := char_code c in (n =? 32) || ((9 <=? n) && (n <=? 13)).

Definition digit_value (c : ascii) : option Z :=
  let n := char_code c in
  if (48 <=? n) && (n <=? 57) then Some (n - 48) else None.

Fixpoint skip_spaces (s : string) : string :=
  match s with
  | String c rest => if isspace c then skip_spaces rest else s
  | EmptyString => s
  end.

(** The longest prefix of decimal digits, as a number; [None] when there is
    no digit at all. *)
Fixpoint read_digits (s : string) (acc : option Z) : option Z :=
  match s with
  | String c rest =>
      match digit_value c with
      | Some d => read_digits rest (Some (10 * default 0 acc + d))
      | None => acc
      end
  | EmptyString => acc
  end.

(** [std::stoul] and [std::stoull] in base 10 over a [bits]-wide unsigned
    type: leading white space is skipped, one sign is accepted, the digits
    are read, trailing characters are ignored. No digit throws
    [std::invalid_argument], a magnitude that does not fit throws
    [std::out_of_range], and a minus sign negates in the unsigned type. *)
Definition strtou (bits : Z) (s : string) : outcome Z :=
  let s1 := skip_spaces s in
  let '(neg, s2) :=
    match s1 with
    | String "-" rest => (true, rest)
    | String "+" rest => (false, rest)
    | _ => (false, s1)
    end in
  match read_digits s2 None with
  | None => Thrown invalid_argument
  | Some v =>
      if 2 ^ bits <=? v then Thrown out_of_range
      else Returned (if neg then (2 ^ bits - v) mod 2 ^ bits else v)
  end.

(** The extension targets Windows, where [unsigned long] has 32 bits and
    [unsigned long long] has 64. *)
Definition stoul : string -> outcome Z := strtou 32.
Definition stoull : string -> outcome Z := strtou 64.

(** The decimal numeral of a non-negative number, for statements about
    what the conversions read. *)
Definition numeral (n : Z) : string :=
  NilZero.string_of_uint (N.to_uint (Z.to_N n)).

(** The number a sequence of decimal digits denotes, most significant digit
    first, continuing from [acc]. *)
Fixpoint uint_value (d : Decimal.uint) (acc : Z) : Z :=
  match d with
  | Decimal.Nil => acc
  | Decimal.D0 l => uint_value l (10 * acc)
  | Decimal.D1 l => uint_value l (10 * acc + 1)
  | Decimal.D2 l => uint_value l (10 * acc + 2)
  | Decimal.D3 l => uint_value l (10 * acc + 3)
  | Decimal.D4 l => uint_value l (10 * acc + 4)
  | Decimal.D5 l => uint_value l (10 * acc + 5)
  | Decimal.D6 l => uint_value l (10 * acc + 6)
  | Decimal.D7 l => uint_value l (10 * acc + 7)
  | Decimal.D8 l => uint_value l (10 * acc + 8)
  | Decimal.D9 l => uint_value l (10 * acc + 9)
  end.

End Cxx.
Export Cxx.

(** ** Argument tokenizer *)

Module Args.

Definition NUL : ascii := zero.
Definition dquote : ascii := "034"%char.
Definition squote : ascii := "039"%char.
Definition comma : ascii := "044"%char.

Record split_state := mkSplit {
  citation_char : ascii;
  vargs : list string;
  token : string
}.

Definition is_empty (s : string) : bool :=
  match s with EmptyString => true | _ => false end.

Definition push_back (s : string) (c : ascii) : string := s +:+ String c "".

(** [if (!token.empty()) { vargs.push_back(token); token.clear(); }] *)
Definition flush (st : split_state) : split_state :=
  if is_empty (token st) then st
  else mkSplit (citation_char st) (vargs st ++ [token st]) "".

(** The body of the loop over the characters of [args]. *)
Definition split_step (st : split_state) (c : ascii) : split_state :=
  if negb (Ascii.eqb (citation_char st) NUL) then
    if Ascii.eqb c (citation_char st) then
      let st' := flush st in mkSplit NUL (vargs st') (token st')
    else mkSplit (citation_char st) (vargs st) (push_back (token st) c)
  else if Ascii.eqb c dquote || Ascii.eqb c squote then
    mkSplit c (vargs st) (token st)
  else if isspace c || Ascii.eqb c comma then flush st
  else mkSplit (citation_char st) (vargs st) (push_back (token st) c).

Definition split_args (args : string) : list string :=
  let st := fold_left split_step (list_ascii_of_string args) (mkSplit NUL [] "") in
  vargs (flush st).

End Args.
Export Args.

(** ** Collaborators declared outside [ext.cpp]

    [widen] and [try_parse_guid] come from [comon.h]; the handlers only call
    them, so they are taken as parameters. [try_parse_guid] fills a GUID and
    returns an HRESULT, like its C++ signature with an out parameter. *)
Class GuidCodec := {
  widen : string -> wstring;
  try_parse_guid : wstring -> HRESULT * GUID
}.

(** ** Filter *)

Module Filter.

(** The alternatives of the [cofilter] variant, as [parse_filter] and
    [print_filter] build and inspect them. *)
Inductive cofilter :=
| no_filter
| including_filter (clsids : gset CLSID)
| excluding_filter (clsids : gset CLSID).

(** Modelled from the spec: the decision function of the filter lives in the
    monitor sources, which are not part of [ext.cpp]. A class is observed iff
    there is no filter, or it is in the including set, or it is not in the
    excluding set. *)
Definition filter_decide (f : cofilter) (clsid : CLSID) : bool :=
  match f with
  | no_filter => true
  | including_filter s => bool_decide (clsid ∈ s)
  | excluding_filter s => bool_decide (clsid ∉ s)
  end.

Section Parse.
Context {codec : GuidCodec}.

(** [SUCCEEDED(try_parse_guid(widen(t), clsid))], with the GUID it fills. *)
Definition guid_of (t : string) : option CLSID :=
  let '(hr, clsid) := try_parse_guid (widen t) in
  if SUCCEEDED hr then Some clsid else None.

(** One token of the scan: a GUID that parses is inserted into the working
    set, anything else leaves it as it is. *)
Definition collect (t : string) (clsids : gset CLSID) : gset CLSID :=
  match guid_of t with
  | Some clsid => {[clsid]} ∪ clsids
  | None => clsids
  end.

(** The loop of [parse_filter] over [crbegin .. crend]: [rargs] is the token
    sequence in reverse, [clsids] the working set. *)
Fixpoint parse_filter_scan (rargs : list string) (clsids : gset CLSID) : cofilter :=
  match rargs with
  | [] =>
      if (0 <? size clsids)%nat then including_filter clsids
      else no_filter
  | t :: rest =>
      if String.eqb t "-i" then including_filter clsids
      else if String.eqb t "-e" then excluding_filter clsids
      else parse_filter_scan rest (collect t clsids)
  end.

Definition parse_filter (args : list string) : cofilter :=
  parse_filter_scan (rev args) ∅.

(** Vocabulary for the statements about [parse_filter]: the two flag tokens,
    the tokens the scan reacts to, and the set of GUIDs a token sequence
    holds. *)
Definition is_flag (t : string) : bool := String.eqb t "-i" || String.eqb t "-e".

Definition no_flag (tokens : list string) : bool :=
  forallb (fun t => negb (is_flag t)) tokens.

Definition is_skipped (t : string) : bool :=
  negb (is_flag t) && bool_decide (guid_of t = None).

Definition guid_set (tokens : list string) : gset CLSID :=
  list_to_set (omap guid_of tokens).

End Parse.
End Filter.
Export Filter.

(** ** Monitor and session *)

(** Modelled from the spec: the error kinds of the engine, which the monitor
    and session sources (not part of [ext.cpp]) report. *)
Inductive error :=
| InvalidGuidFormat
| AlreadyAttached
| NotAttached
| UnknownVtable
| MethodNotFound
| BreakpointNotFound
| UnderlyingBreakpointFailure.

(** What an operation of the engine reports: its value or one of the error
    kinds. *)
Inductive result (A : Type) :=
| Ok (a : A)
| Err (e : error).
Arguments Ok {A} a.
Arguments Err {A} e.

(** A method of an interface is selected by its vtable slot or by name: the
    two overloads of [create_cobreakpoint] that [cobp] calls. *)
Inductive method_selector :=
| ByIndex (method_num : Z)
| ByName (method_name : wstring).

(** Modelled from the spec: the debugger collaborator behind the monitor,
    which is not part of [ext.cpp]. It places a real breakpoint at an address
    (a handle, or a refusal), removes one by handle, and names the module
    an address lies in; with it come the label of a breakpoint and the
    HRESULT the monitor returns for each error kind. *)
Class Debugger := {
  place_breakpoint : Z -> option Z;
  remove_breakpoint : Z -> bool;
  module_of_address : Z -> wstring;
  describe_breakpoint : CLSID -> IID -> method_selector -> wstring;
  hresult_of_error : error -> HRESULT
}.

Definition hresult_of {dbg : Debugger} {A} (r : result A) : HRESULT :=
  match r with
  | Ok _ => S_OK
  | Err e => hresult_of_error e
  end.

(** The metadata store as the handlers and the monitor consult it through
    [get_type_methods], [resolve_class_name] and [resolve_type_name]: a
    read-only oracle. *)
Record cometadata := mkMeta {
  get_type_methods : IID -> option (list wstring);
  resolve_class_name : CLSID -> option wstring;
  resolve_type_name : IID -> option wstring
}.

Module Monitor.

(** Modelled from the spec: the record of one observed vtable, declared in
    the monitor sources, not part of [ext.cpp]. *)
Record VtableRecord := mkVtable {
  module_name : wstring;
  vt_clsid : CLSID;
  vt_iid : IID;
  is_64bit : bool;
  vt_address : Z
}.

(** Modelled from the spec: a logical breakpoint, declared in the monitor
    sources, not part of [ext.cpp]. *)
Record Breakpoint := mkBreakpoint {
  bp_id : Z;
  bp_description : wstring;
  bp_address : Z
}.

(** Modelled from the spec: the [comonitor] class is not part of [ext.cpp].
    It owns its filter, the vtable registry, the breakpoint manager (each
    logical breakpoint with the handle of the real one, and the next free
    id) and the paused flag. *)
Record comonitor := mkMonitor {
  mon_filter : cofilter;
  registry : list VtableRecord;
  breakpoints : list (Breakpoint * Z);
  next_id : Z;
  paused : bool
}.

Definition with_paused (m : comonitor) (b : bool) : comonitor :=
  mkMonitor (mon_filter m) (registry m) (breakpoints m) (next_id m) b.

Definition with_registry (m : comonitor) (r : list VtableRecord) : comonitor :=
  mkMonitor (mon_filter m) r (breakpoints m) (next_id m) (paused m).

(** Modelled from the spec: the monitor constructor is not part of
    [ext.cpp]. A new monitor holds the given filter, an empty registry, no
    breakpoints, and is Running. *)
Definition new_monitor (f : cofilter) : comonitor := mkMonitor f [] [] 0 false.

(** Modelled from the spec: [comonitor::pause] is not part of [ext.cpp]. It
    moves the monitor to Paused and touches nothing else. *)
Definition pause (m : comonitor) : comonitor := with_paused m true.

(** Modelled from the spec: [comonitor::resume] is not part of [ext.cpp]. It
    moves the monitor back to Running and touches nothing else. *)
Definition resume (m : comonitor) : comonitor := with_paused m false.

(** Modelled from the spec: [comonitor::is_paused] is not part of
    [ext.cpp]. *)
Definition is_paused (m : comonitor) : bool := paused m.

(** The tests the registry uses: the same (clsid, iid, address) tuple, and a
    record for (clsid, iid). *)
Definition same_vtable (clsid : CLSID) (iid : IID) (addr : Z) (r : VtableRecord) : bool :=
  bool_decide (vt_clsid r = clsid) && bool_decide (vt_iid r = iid)
  && (vt_address r =? addr).

Definition matches (clsid : CLSID) (iid : IID) (r : VtableRecord) : bool :=
  bool_decide (vt_clsid r = clsid) && bool_decide (vt_iid r = iid).

Section WithDebugger.
Context {dbg : Debugger}.

(** Modelled from the spec: [comonitor::register_vtable] is not part of
    [ext.cpp]. While Paused it is a no-op that reports success; when Running
    it delegates to the registry, where the filter is consulted (a class the
    filter rejects is dropped, still with success) and an identical
    (clsid, iid, address) tuple is not recorded twice. *)
Definition register_vtable (m : comonitor) (clsid : CLSID) (iid : IID)
    (vtable_addr : Z) (is64 : bool) : result unit * comonitor :=
  if paused m then (Ok tt, m)
  else if negb (filter_decide (mon_filter m) clsid) then (Ok tt, m)
  else if existsb (same_vtable clsid iid vtable_addr) (registry m) then (Ok tt, m)
  else (Ok tt,
        with_registry m
          (registry m ++
           [mkVtable (module_of_address vtable_addr) clsid iid is64 vtable_addr])).

(** The position of a name in an ordered method list, counted from 0. *)
Fixpoint index_of (name : wstring) (methods : list wstring) : option Z :=
  match methods with
  | [] => None
  | m :: rest =>
      if String.eqb m name then Some 0
      else option_map Z.succ (index_of name rest)
  end.

(** Modelled from the spec: the selector is resolved into a plain index
    before any address arithmetic. An index is used as it is; a name is
    looked up in the ordered method list of the interface and fails with
    [MethodNotFound] if it is absent or the IID has no metadata. *)
Definition resolve_selector (meta : cometadata) (iid : IID) (sel : method_selector)
    : result Z :=
  match sel with
  | ByIndex n => Ok n
  | ByName name =>
      match get_type_methods meta iid with
      | None => Err MethodNotFound
      | Some methods =>
          match index_of name methods with
          | Some k => Ok k
          | None => Err MethodNotFound
          end
      end
  end.

(** Modelled from the spec: the pointer width comes from the record's
    [is_64bit] flag, eight bytes or four. *)
Definition pointer_width (r : VtableRecord) : Z := if is_64bit r then 8 else 4.

(** Modelled from the spec: address = vtable base + method index × pointer
    width, the width taken from the record's [is_64bit] flag. *)
Definition method_address (r : VtableRecord) (method_index : Z) : Z :=
  vt_address r + method_index * pointer_width r.

(** Modelled from the spec: the registry lookup of the breakpoint manager,
    the first record matching (clsid, iid). *)
Definition find_vtable (reg : list VtableRecord) (clsid : CLSID) (iid : IID)
    : option VtableRecord :=
  List.find (matches clsid iid) reg.

(** Modelled from the spec: the breakpoint manager's creation step once the
    method index is known, not part of [ext.cpp]. It needs a vtable record
    matching (clsid, iid), asks the debugger for a real breakpoint at the
    computed address, and only when that succeeds allocates a fresh id and
    stores the record. *)
Definition create_at (m : comonitor) (clsid : CLSID) (iid : IID)
    (sel : method_selector) (method_index : Z) : result Z * comonitor :=
  match find_vtable (registry m) clsid iid with
  | None => (Err UnknownVtable, m)
  | Some r =>
      let addr := method_address r method_index in
      match place_breakpoint addr with
      | None => (Err UnderlyingBreakpointFailure, m)
      | Some handle =>
          let bp := mkBreakpoint (next_id m) (describe_breakpoint clsid iid sel) addr in
          (Ok (next_id m),
           mkMonitor (mon_filter m) (registry m) (breakpoints m ++ [(bp, handle)])
             (next_id m + 1) (paused m))
      end
  end.

(** Modelled from the spec: [comonitor::create_cobreakpoint] is not part of
    [ext.cpp]. The selector is resolved first, then the breakpoint is
    created at the resolved index; it works the same whether the monitor is
    paused or not. *)
Definition create_cobreakpoint (meta : cometadata) (m : comonitor) (clsid : CLSID)
    (iid : IID) (sel : method_selector) : result Z * comonitor :=
  match resolve_selector meta iid sel with
  | Err e => (Err e, m)
  | Ok k => create_at m clsid iid sel k
  end.

(** Modelled from the spec: the address [create_cobreakpoint] computes for
    (clsid, iid, selector), before the debugger is asked to place anything
    there. *)
Definition breakpoint_address (meta : cometadata) (m : comonitor) (clsid : CLSID)
    (iid : IID) (sel : method_selector) : result Z :=
  match resolve_selector meta iid sel with
  | Err e => Err e
  | Ok k =>
      match find_vtable (registry m) clsid iid with
      | None => Err UnknownVtable
      | Some r => Ok (method_address r k)
      end
  end.

(** Modelled from the spec: [comonitor::remove_cobreakpoint] is not part of
    [ext.cpp]. An unknown id fails with [BreakpointNotFound]; otherwise the
    debugger deletes the real breakpoint and the logical record goes with
    it. Every failure leaves the monitor as it was. *)
Definition remove_cobreakpoint (m : comonitor) (id : Z) : result unit * comonitor :=
  match List.find (fun e => bp_id (fst e) =? id) (breakpoints m) with
  | None => (Err BreakpointNotFound, m)
  | Some (_, handle) =>
      if remove_breakpoint handle then
        (Ok tt,
         mkMonitor (mon_filter m) (registry m)
           (List.filter (fun e => negb (bp_id (fst e) =? id)) (breakpoints m))
           (next_id m) (paused m))
      else (Err UnderlyingBreakpointFailure, m)
  end.

End WithDebugger.

(** Modelled from the spec: [comonitor::list_breakpoints] is not part of
    [ext.cpp]. The breakpoints in insertion order. *)
Definition list_breakpoints (m : comonitor) : list Breakpoint :=
  map fst (breakpoints m).

(** Modelled from the spec: [comonitor::list_cotypes] is not part of
    [ext.cpp]. The registry grouped by class: every recorded CLSID, in order
    of first observation, with the (address, IID) pairs of its vtables. *)
Definition list_cotypes (m : comonitor) : list (CLSID * list (Z * IID)) :=
  map (fun clsid =>
         (clsid,
          map (fun r => (vt_address r, vt_iid r))
              (List.filter (fun r => bool_decide (vt_clsid r = clsid)) (registry m))))
      (remove_dups (map vt_clsid (registry m))).

End Monitor.
Export Monitor.

Module Session.

(** Modelled from the spec: the [dbgsession] class lives in [dbgsession.h],
    not part of [ext.cpp]. The process-wide session holds zero or one active
    monitor and the metadata store. *)
Record dbgsession := mkSession {
  active_monitor : option comonitor;
  metadata : cometadata
}.

Definition with_monitor (s : dbgsession) (m : option comonitor) : dbgsession :=
  mkSession m (metadata s).

(** Modelled from the spec: [dbgsession::find_active_monitor] lives in
    [dbgsession.h], not part of [ext.cpp]. It returns nothing when no monitor
    is attached. *)
Definition find_active_monitor (s : dbgsession) : option comonitor :=
  active_monitor s.

(** Modelled from the spec: [dbgsession::get_metadata] lives in
    [dbgsession.h]. The store is available whatever the attach state. *)
Definition get_metadata (s : dbgsession) : cometadata := metadata s.

(** Modelled from the spec: [dbgsession::attach] lives in [dbgsession.h]. It
    fails with [AlreadyAttached] if a monitor is active; otherwise it
    constructs a new monitor with the given filter and makes it active. *)
Definition attach (s : dbgsession) (f : cofilter) : result unit * dbgsession :=
  match active_monitor s with
  | Some _ => (Err AlreadyAttached, s)
  | None => (Ok tt, with_monitor s (Some (new_monitor f)))
  end.

(** Modelled from the spec: [dbgsession::detach] lives in [dbgsession.h]. It
    tears the active monitor down; with nothing attached it is a no-op. *)
Definition detach (s : dbgsession) : dbgsession :=
  match active_monitor s with
  | Some _ => with_monitor s None
  | None => s
  end.

End Session.
Export Session.

(** ** The exported command handlers *)

Module Ext.

(** What a handler sees of the debugger client: the HRESULT of its
    [QueryInterface] for [IDebugControl4]. *)
Record IDebugClient := mkClient { QueryInterface : HRESULT }.

Inductive output_mask := DEBUG_OUTPUT_NORMAL | DEBUG_OUTPUT_ERROR.

(** The texts the handlers print; formatted lines keep their arguments. *)
Inductive message :=
| invalid_arguments_error
| monitor_not_enabled_error
| monitor_already_enabled_error
| monitor_enabled_message
| breakpoint_line (id : Z) (desc : wstring) (addr : Z)
| status_line (is_paused : bool)
| cotypes_header
| clsid_line (clsid : CLSID) (name : option wstring)
| iid_line (iid : IID) (name : option wstring) (addr : Z)
| including_header
| excluding_header
| filter_clsid_line (clsid : CLSID).

Definition output := (output_mask * message)%type.

(** What a call of a handler leaves behind: the HRESULT it returned or the
    exception that left it, the session, and what was printed. *)
Record reply := mkReply {
  returned : outcome HRESULT;
  session : dbgsession;
  printed : list output
}.

Definition error_reply (hr : HRESULT) (s : dbgsession) (msg : message) : reply :=
  mkReply (Returned hr) s [(DEBUG_OUTPUT_ERROR, msg)].

(** [RETURN_IF_FAILED(dbgclient->QueryInterface(...))] at the head of every
    handler. *)
Definition with_control (dbgclient : IDebugClient) (s : dbgsession)
    (body : reply) : reply :=
  if FAILED (QueryInterface dbgclient) then
    mkReply (Returned (QueryInterface dbgclient)) s []
  else body.

(** [extern "C" void DebugExtensionUninitialize(void)] *)
Definition DebugExtensionUninitialize (s : dbgsession) : dbgsession := detach s.

Section Handlers.
Context {codec : GuidCodec} {dbg : Debugger}.

(** [return monitor->op(...)]: the operation works on the active monitor
    through the pointer the session handed out, and its result is what the
    handler returns. *)
Definition monitor_reply {A} (s : dbgsession) (rm : result A * comonitor) : reply :=
  mkReply (Returned (hresult_of (fst rm))) (with_monitor s (Some (snd rm))) [].

(** The part cobp and coreg share: at least three tokens, the first two of
    which parse as GUIDs. *)
Definition with_guids (s : dbgsession) (vargs : list string)
    (body : CLSID -> IID -> string -> reply) : reply :=
  match vargs with
  | a0 :: a1 :: a2 :: _ =>
      let '(hr0, clsid) := try_parse_guid (widen a0) in
      if FAILED hr0 then mkReply (Returned hr0) s []
      else
        let '(hr1, iid) := try_parse_guid (widen a1) in
        if FAILED hr1 then mkReply (Returned hr1) s []
        else body clsid iid a2
  | _ => error_reply E_INVALIDARG s invalid_arguments_error
  end.

Definition cobp (dbgclient : IDebugClient) (args : string) (s : dbgsession) : reply :=
  with_control dbgclient s
    (with_guids s (split_args args) (fun clsid iid a2 =>
       match find_active_monitor s with
       | Some monitor =>
           match stoul a2 with
           | Returned method_num =>
               monitor_reply s
                 (create_cobreakpoint (get_metadata s) monitor clsid iid
                    (ByIndex method_num))
           | Thrown invalid_argument =>
               (* we will try with a method name *)
               monitor_reply s
                 (create_cobreakpoint (get_metadata s) monitor clsid iid
                    (ByName (widen a2)))
           | Thrown e => mkReply (Thrown e) s []
           end
       | None => error_reply E_FAIL s monitor_not_enabled_error
       end)).

Definition cobl (dbgclient : IDebugClient) (args : string) (s : dbgsession) : reply :=
  with_control dbgclient s
    match find_active_monitor s with
    | Some monitor =>
        mkReply (Returned S_OK) s
          (map (fun bp =>
                  (DEBUG_OUTPUT_NORMAL,
                   breakpoint_line (bp_id bp) (bp_description bp) (bp_address bp)))
               (list_breakpoints monitor))
    | None => error_reply E_FAIL s monitor_not_enabled_error
    end.

Definition cobd (dbgclient : IDebugClient) (args : string) (s : dbgsession) : reply :=
  with_control dbgclient s
    match find_active_monitor s with
    | Some monitor =>
        match stoul args with
        | Returned id => monitor_reply s (remove_cobreakpoint monitor id)
        | Thrown e => mkReply (Thrown e) s []
        end
    | None => error_reply E_FAIL s monitor_not_enabled_error
    end.

Definition coreg (dbgclient : IDebugClient) (args : string) (s : dbgsession) : reply :=
  with_control dbgclient s
    (with_guids s (split_args args) (fun clsid iid a2 =>
       match find_active_monitor s with
       | Some monitor =>
           match stoull a2 with
           | Returned vtable_addr =>
               monitor_reply s (register_vtable monitor clsid iid vtable_addr false)
           | Thrown e => mkReply (Thrown e) s []
           end
       | None => error_reply E_FAIL s monitor_not_enabled_error
       end)).

(** The [print_filter] lambda of [comon]. *)
Definition print_filter (f : cofilter) : list output :=
  let print_clsids (clsids : gset CLSID) :=
    map (fun clsid => (DEBUG_OUTPUT_NORMAL, filter_clsid_line clsid)) (elements clsids) in
  match f with
  | including_filter clsids => (DEBUG_OUTPUT_NORMAL, including_header) :: print_clsids clsids
  | excluding_filter clsids => (DEBUG_OUTPUT_NORMAL, excluding_header) :: print_clsids clsids
  | no_filter => []
  end.

(** The output of the [status] subcommand. *)
Definition print_status (cometa : cometadata) (monitor : comonitor) : list output :=
  (DEBUG_OUTPUT_NORMAL, status_line (is_paused monitor))
  :: (DEBUG_OUTPUT_NORMAL, cotypes_header)
  :: concat
       (map (fun '(clsid, vtables) =>
               (DEBUG_OUTPUT_NORMAL, clsid_line clsid (resolve_class_name cometa clsid))
               :: map (fun '(addr, iid) =>
                         (DEBUG_OUTPUT_NORMAL,
                          iid_line iid (resolve_type_name cometa iid) addr))
                      vtables)
            (list_cotypes monitor)).

Definition comon (dbgclient : IDebugClient) (args : string) (s : dbgsession) : reply :=
  with_control dbgclient s
    match split_args args with
    | [] => error_reply E_INVALIDARG s invalid_arguments_error
    | a0 :: rest =>
        match find_active_monitor s with
        | Some monitor =>
            if String.eqb a0 "attach" then
              error_reply E_FAIL s monitor_already_enabled_error
            else if String.eqb a0 "pause" then
              mkReply (Returned S_OK) (with_monitor s (Some (pause monitor))) []
            else if String.eqb a0 "resume" then
              mkReply (Returned S_OK) (with_monitor s (Some (resume monitor))) []
            else if String.eqb a0 "detach" then
              mkReply (Returned S_OK) (detach s) []
            else if String.eqb a0 "status" then
              mkReply (Returned S_OK) s (print_status (get_metadata s) monitor)
            else error_reply E_INVALIDARG s invalid_arguments_error
        | None =>
            if String.eqb a0 "attach" then
              let filter := parse_filter rest in
              mkReply (Returned S_OK) (snd (attach s filter))
                ((DEBUG_OUTPUT_NORMAL, monitor_enabled_message) :: print_filter filter)
            else error_reply E_FAIL s monitor_not_enabled_error
        end
    end.

End Handlers.

(** A reply that reports a failure code and leaves the session as it was. *)
Definition failed_unchanged (s : dbgsession) (r : reply) : Prop :=
  exists hr, returned r = Returned hr /\ FAILED hr = true /\ session r = s.

End Ext.
Export Ext.

(** ** A concrete host

    One instance of the collaborators, used to run the handlers on concrete
    command lines. *)

Module Sample.

Definition hex_value (c : ascii) : option Z :=
  let n := char_code c in
  if (48 <=? n) && (n <=? 57) then Some (n - 48)
  else if (65 <=? n) && (n <=? 70) then Some (n - 55)
  else if (97 <=? n) && (n <=? 102) then Some (n - 87)
  else None.

Fixpoint hex_number (cs : list ascii) (acc : Z) : option Z :=
  match cs with
  | [] => Some acc
  | c :: rest =>
      match hex_value c with
      | Some d => hex_number rest (16 * acc + d)
      | None => None
      end
  end.

Fixpoint hex_bytes (cs : list ascii) : option (list Z) :=
  match cs with
  | [] => Some []
  | hi :: lo :: rest =>
      match hex_number [hi; lo] 0, hex_bytes rest with
      | Some b, Some bs => Some (b :: bs)
      | _, _ => None
      end
  | _ => None
  end.

Definition strip_braces (cs : list ascii) : list ascii :=
  match cs with
  | "{"%char :: rest =>
      match List.rev rest with
      | "}"%char :: inner => List.rev inner
      | _ => cs
      end
  | _ => cs
  end.

Definition is_dash (cs : list ascii) : bool :=
  match cs with
  | ["-"%char] => true
  | _ => false
  end.

Definition slice (from len : nat) (cs : list ascii) : list ascii :=
  take len (drop from cs).

(** Modelled from the spec: the GUID codec ([try_parse_guid] of [comon.h])
    parses and validates the textual form 8-4-4-4-12 of hexadecimal digits,
    with or without braces, into the binary value. *)
Definition guid_of_text (ws : wstring) : option GUID :=
  let cs := strip_braces (list_ascii_of_string ws) in
  if (length cs =? 36)%nat
     && is_dash (slice 8 1 cs) && is_dash (slice 13 1 cs)
     && is_dash (slice 18 1 cs) && is_dash (slice 23 1 cs)
  then
    match hex_number (slice 0 8 cs) 0, hex_number (slice 9 4 cs) 0,
          hex_number (slice 14 4 cs) 0,
          hex_bytes (slice 19 4 cs ++ slice 24 12 cs) with
    | Some d1, Some d2, Some d3, Some d4 => Some (mkGUID d1 d2 d3 d4)
    | _, _, _, _ => None
    end
  else None.

Definition GUID_NULL : GUID := mkGUID 0 0 0 [0; 0; 0; 0; 0; 0; 0; 0].

Definition codec : GuidCodec :=
  {| widen := fun s => s;
     try_parse_guid := fun ws =>
       match guid_of_text ws with
       | Some g => (S_OK, g)
       | None => (E_INVALIDARG, GUID_NULL)
       end |}.

Definition error_code (e : error) : HRESULT :=
  match e with
  | InvalidGuidFormat | MethodNotFound | BreakpointNotFound => E_INVALIDARG
  | _ => E_FAIL
  end.

(** A debugger that places every breakpoint, and one that refuses all. *)
Definition debugger : Debugger :=
  {| place_breakpoint := fun addr => Some addr;
     remove_breakpoint := fun _ => true;
     module_of_address := fun _ => "combase";
     describe_breakpoint := fun _ _ _ => "cobp";
     hresult_of_error := error_code |}.

Definition refusing_debugger : Debugger :=
  {| place_breakpoint := fun _ => None;
     remove_breakpoint := fun _ => false;
     module_of_address := fun _ => "combase";
     describe_breakpoint := fun _ _ _ => "cobp";
     hresult_of_error := error_code |}.

Definition IID_IUnknown_text : string := "{00000000-0000-0000-C000-000000000046}".
Definition IID_IUnknown : IID := mkGUID 0 0 0 [192; 0; 0; 0; 0; 0; 0; 70].

Definition CLSID_sample_text : string := "F9A2C1D4-0B3E-4F67-8A9B-1C2D3E4F5A6B".
Definition CLSID_sample : CLSID :=
  mkGUID 4188193236 2878 20327 [138; 155; 28; 45; 62; 79; 90; 107].

(** Metadata that knows the three methods of IUnknown and nothing else. *)
Definition meta : cometadata :=
  {| get_type_methods := fun iid =>
       if bool_decide (iid = IID_IUnknown)
       then Some ["QueryInterface"; "AddRef"; "Release"] else None;
     resolve_class_name := fun _ => None;
     resolve_type_name := fun iid =>
       if bool_decide (iid = IID_IUnknown) then Some "IUnknown" else None |}.

Definition client : IDebugClient := mkClient S_OK.

Definition fresh : dbgsession := mkSession None meta.

Definition sample_vtable : VtableRecord :=
  mkVtable "combase" CLSID_sample IID_IUnknown true 140700000000000.

Definition observed (f : cofilter) : comonitor :=
  mkMonitor f [sample_vtable] [] 0 false.

Definition attached (f : cofilter) : dbgsession := mkSession (Some (observed f)) meta.

(** Command lines over the sample class and interface. *)
Definition command_line (selector : string) : string :=
  CLSID_sample_text +:+ " " +:+ IID_IUnknown_text +:+ " " +:+ selector.

End Sample.

(** ** The remaining entry points of [ext.cpp] *)

Module Tokens.

(** The character classes [split_args] tells apart. *)
Definition is_quote (c : ascii) : bool := Ascii.eqb c dquote || Ascii.eqb c squote.

Definition is_separator (c : ascii) : bool := isspace c || Ascii.eqb c comma.

Definition is_plain (c : ascii) : bool := negb (is_quote c) && negb (is_separator c).

(** A text without any quotation mark, and a token as it can be written
    without quoting: not empty, no quotation mark, no separator. *)
Definition unquoted (s : string) : bool :=
  forallb (fun c => negb (is_quote c)) (list_ascii_of_string s).

Definition bare (t : string) : bool :=
  negb (is_empty t) && forallb is_plain (list_ascii_of_string t).

Definition blank (s : string) : bool :=
  forallb is_separator (list_ascii_of_string s).

(** The tokens written one after the other with [sep] between them. *)
Fixpoint join (sep : ascii) (ts : list string) : string :=
  match ts with
  | [] => ""
  | [t] => t
  | t :: rest => t +:+ String sep (join sep rest)
  end.

(** The loop of [split_args] read from the front: the tokens still to come
    when the quotation state is [q], the token under construction is [tok]
    and the characters [cs] are left. *)
Fixpoint tokens_from (q : ascii) (tok : string) (cs : list ascii) : list string :=
  match cs with
  | [] => if is_empty tok then [] else [tok]
  | c :: rest =>
      if negb (Ascii.eqb q NUL) then
        if Ascii.eqb c q then
          if is_empty tok then tokens_from NUL "" rest
          else tok :: tokens_from NUL "" rest
        else tokens_from q (push_back tok c) rest
      else if Ascii.eqb c dquote || Ascii.eqb c squote then tokens_from c tok rest
      else if isspace c || Ascii.eqb c comma then
        if is_empty tok then tokens_from NUL "" rest
        else tok :: tokens_from NUL "" rest
      else tokens_from NUL (push_back tok c) rest
  end.

End Tokens.
Export Tokens.

Module Init.

(** [DEBUG_EXTENSION_VERSION(Major, Minor)] of [DbgEng.h]:
    [((((Major) & 0xffff) << 16) | ((Minor) & 0xffff))]. *)
Definition DEBUG_EXTENSION_VERSION (major minor : Z) : Z :=
  Z.lor (Z.shiftl (Z.land major 0xffff) 16) (Z.land minor 0xffff).

(** What [DebugExtensionInitialize] writes through its two pointers and
    returns. The version numbers [EXT_MAJOR_VER] and [EXT_MINOR_VER] are
    macros of the build, taken as parameters. *)
Record init_result := mkInit { init_hr : HRESULT; version : Z; flags : Z }.

Definition DebugExtensionInitialize (EXT_MAJOR_VER EXT_MINOR_VER : Z) : init_result :=
  mkInit S_OK (DEBUG_EXTENSION_VERSION EXT_MAJOR_VER EXT_MINOR_VER) 0.

(** [DebugExtensionNotify] has an empty body. *)
Definition DebugExtensionNotify (notify argument : Z) (s : dbgsession) : dbgsession := s.

End Init.
Export Init.

Module Cometa.

(** The descriptors [resolve_type] and [resolve_class] hand out; [cometa]
    reads their [name] only. *)
Record cotype := mkCotype { cotype_name : wstring }.
Record coclass := mkCoclass { coclass_name : wstring }.

(** The operations of the metadata store that [cometa] calls beyond the
    three of [cometadata]. They are declared outside [ext.cpp] and taken as
    parameters. [index] and [save] work on the store through a non-const
    reference, so they hand back the store they leave behind. *)
Class MetadataStore := {
  cometa_index : cometadata -> option wstring -> HRESULT * cometadata;
  cometa_save : cometadata -> wstring -> HRESULT * cometadata;
  resolve_type : cometadata -> IID -> option cotype;
  resolve_class : cometadata -> CLSID -> option coclass;
  find_vtables_by_iid : cometadata -> IID -> list (wstring * CLSID * bool * Z);
  find_vtables_by_clsid : cometadata -> CLSID -> list (wstring * IID * bool * Z)
}.

(** The texts [cometa] prints; formatted lines keep their arguments. *)
Inductive meta_message :=
| meta_invalid_arguments
| unknown_subcommand
| incorrect_iid_format
| incorrect_clsid_format
| found_type (iid : IID) (name : wstring)
| methods_header
| method_line (i : nat) (name : wstring)
| no_methods_information
| type_not_found (iid : IID)
| vtables_for_iid_header
| vtable_of_class_line (module : wstring) (is64 : bool) (clsid : CLSID)
    (clsid_name : option wstring) (vtbl : Z)
| found_class (clsid : CLSID) (name : wstring)
| class_not_found (clsid : CLSID)
| vtables_for_clsid_header
| vtable_of_interface_line (module : wstring) (is64 : bool) (iid : IID)
    (iid_name : option wstring) (vtbl : Z).

Definition meta_output := (output_mask * meta_message)%type.

Record meta_reply := mkMetaReply {
  meta_returned : outcome HRESULT;
  meta_session : dbgsession;
  meta_printed : list meta_output
}.

Definition meta_error (s : dbgsession) (msg : meta_message) : meta_reply :=
  mkMetaReply (Returned E_INVALIDARG) s [(DEBUG_OUTPUT_ERROR, msg)].

Definition normal (msg : meta_message) : meta_output := (DEBUG_OUTPUT_NORMAL, msg).

(** [for (size_t i = 0; i < methods->size(); i++)] printing [methods->at(i)]
    with its index. *)
Definition method_lines (methods : list wstring) : list meta_output :=
  imap (fun i name => normal (method_line i name)) methods.

Section Handler.
Context {codec : GuidCodec} {store : MetadataStore}.

(** The output of [showi] for an IID that parsed. *)
Definition show_interface (cometa : cometadata) (iid : IID) : list meta_output :=
  (match resolve_type cometa iid with
   | Some cotype =>
       normal (found_type iid (cotype_name cotype))
       :: match get_type_methods cometa iid with
          | Some methods => normal methods_header :: method_lines methods
          | None => [normal no_methods_information]
          end
   | None => [normal (type_not_found iid)]
   end)
  ++ normal vtables_for_iid_header
     :: map (fun '(module_name, clsid, is_64bit, vtbl) =>
               normal (vtable_of_class_line module_name is_64bit clsid
                         (resolve_class_name cometa clsid) vtbl))
            (find_vtables_by_iid cometa iid).

(** The output of [showc] for a CLSID that parsed. *)
Definition show_class (cometa : cometadata) (clsid : CLSID) : list meta_output :=
  (match resolve_class cometa clsid with
   | Some coclass => [normal (found_class clsid (coclass_name coclass))]
   | None => [normal (class_not_found clsid)]
   end)
  ++ normal vtables_for_clsid_header
     :: map (fun '(module_name, iid, is_64bit, vtbl) =>
               normal (vtable_of_interface_line module_name is_64bit iid
                         (resolve_type_name cometa iid) vtbl))
            (find_vtables_by_clsid cometa clsid).

(** [return cometa.index(...)] and [return cometa.save(...)]: the store is
    the one of the session. *)
Definition store_reply (s : dbgsession) (r : HRESULT * cometadata) : meta_reply :=
  mkMetaReply (Returned (fst r)) (mkSession (active_monitor s) (snd r)) [].

Definition cometa (dbgclient : IDebugClient) (args : string) (s : dbgsession)
    : meta_reply :=
  if FAILED (QueryInterface dbgclient) then
    mkMetaReply (Returned (QueryInterface dbgclient)) s []
  else
    match split_args args with
    | [] => meta_error s meta_invalid_arguments
    | a0 :: rest =>
        let cometa := get_metadata s in
        if String.eqb a0 "index" then
          match rest with
          | [] => store_reply s (cometa_index cometa None)
          | a1 :: _ => store_reply s (cometa_index cometa (Some (widen a1)))
          end
        else if String.eqb a0 "save" then
          match rest with
          | [a1] => store_reply s (cometa_save cometa (widen a1))
          | _ => meta_error s meta_invalid_arguments
          end
        else if String.eqb a0 "showi" then
          match rest with
          | [a1] =>
              let '(hr, iid) := try_parse_guid (widen a1) in
              if SUCCEEDED hr then
                mkMetaReply (Returned S_OK) s (show_interface cometa iid)
              else meta_error s incorrect_iid_format
          | _ => meta_error s meta_invalid_arguments
          end
        else if String.eqb a0 "showc" then
          match rest with
          | [a1] =>
              let '(hr, clsid) := try_parse_guid (widen a1) in
              if SUCCEEDED hr then
                mkMetaReply (Returned S_OK) s (show_class cometa clsid)
              else meta_error s incorrect_clsid_format
          | _ => meta_error s meta_invalid_arguments
          end
        else meta_error s unknown_subcommand
    end.

End Handler.
End Cometa.
Export Cometa.

Module SampleStore.

(** A store that indexes and saves without changing, and knows IUnknown and
    the sample vtable. *)
Definition store : MetadataStore :=
  {| cometa_index := fun m _ => (S_OK, m);
     cometa_save := fun m _ => (S_OK, m);
     resolve_type := fun _ iid =>
       if bool_decide (iid = Sample.IID_IUnknown)
       then Some (mkCotype "IUnknown") else None;
     resolve_class := fun _ _ => None;
     find_vtables_by_iid := fun _ iid =>
       if bool_decide (iid = Sample.IID_IUnknown)
       then [("combase", Sample.CLSID_sample, true, 140700000000000)] else [];
     find_vtables_by_clsid := fun _ clsid =>
       if bool_decide (clsid = Sample.CLSID_sample)
       then [("combase", Sample.IID_IUnknown, true, 140700000000000)] else [] |}.

End SampleStore.

(** * Properties *)

(** ** Number conversion *)

Section Conversion.

Lemma of_uint_acc_value (d : Decimal.uint) (acc : positive) :
  Z.pos (Pos.of_uint_acc d acc) = uint_value d (Z.pos acc).
Proof.
  revert acc. induction d; intros acc; simpl; try rewrite IHd; try reflexivity;
    f_equal; lia.
Qed.

Lemma of_uint_value (d : Decimal.uint) : Z.of_N (Pos.of_uint d) = uint_value d 0.
Proof.
  induction d; simpl; try reflexivity; try exact IHd;
    rewrite of_uint_acc_value; reflexivity.
Qed.

Lemma read_digits_uint (d : Decimal.uint) (acc : Z) :
  read_digits (NilEmpty.string_of_uint d) (Some acc) = Some (uint_value d acc).
Proof.
  revert acc. induction d; intros acc; simpl; try reflexivity;
    rewrite IHd; do 2 f_equal;
    match goal with
    | |- context [char_code ?c - 48] =>
        let v := eval vm_compute in (char_code c - 48) in
        change (char_code c - 48) with v
    end; lia.
Qed.

(** A non-empty sequence of digits is read as the number it denotes. *)
Lemma strtou_uint (bits : Z) (d : Decimal.uint) :
  d <> Decimal.Nil ->
  strtou bits (NilEmpty.string_of_uint d) =
    if 2 ^ bits <=? uint_value d 0 then Thrown out_of_range
    else Returned (uint_value d 0).
Proof.
  intros Hd. unfold strtou.
  destruct d; try congruence; simpl; rewrite read_digits_uint; reflexivity.
Qed.

(** [std::stoul] and [std::stoull] read the decimal numeral of a number that
    fits the type as that number. *)
Lemma strtou_numeral (bits n : Z) :
  0 <= n < 2 ^ bits -> strtou bits (numeral n) = Returned n.
Proof.
  intros Hn. unfold numeral.
  assert (Hnil : N.to_uint (Z.to_N n) <> Decimal.Nil).
  { destruct (Z.to_N n); simpl; [discriminate|].
    apply DecimalPos.Unsigned.to_uint_nonnil. }
  assert (Hval : uint_value (N.to_uint (Z.to_N n)) 0 = n).
  { rewrite <- of_uint_value.
    change (Pos.of_uint (N.to_uint (Z.to_N n))) with (N.of_uint (N.to_uint (Z.to_N n))).
    rewrite DecimalN.Unsigned.of_to. lia. }
  assert (Hstr : NilZero.string_of_uint (N.to_uint (Z.to_N n)) =
                 NilEmpty.string_of_uint (N.to_uint (Z.to_N n))).
  { destruct (N.to_uint (Z.to_N n)); try reflexivity. congruence. }
  rewrite Hstr, (strtou_uint bits _ Hnil), Hval.
  destruct (Z.leb_spec (2 ^ bits) n); [lia|reflexivity].
Qed.

(** A text whose first character is neither white space, a sign nor a digit
    is not a number: the conversion throws [std::invalid_argument]. *)
Lemma strtou_not_a_number (bits : Z) (c : ascii) (rest : string) :
  isspace c = false ->
  c <> "-"%char ->
  c <> "+"%char ->
  digit_value c = None ->
  strtou bits (String c rest) = Thrown invalid_argument.
Proof.
  intros Hs Hm Hp Hd. unfold strtou. simpl. rewrite Hs.
  assert (Hsign : match String c rest with
                  | String "-" r => (true, r)
                  | String "+" r => (false, r)
                  | _ => (false, String c rest)
                  end = (false, String c rest)).
  { destruct c as [[] [] [] [] [] [] [] []]; try reflexivity; congruence. }
  rewrite Hsign. simpl. rewrite Hd. reflexivity.
Qed.

End Conversion.

(** ** Filter construction *)

Section FilterFacts.
Context {codec : GuidCodec}.

Lemma is_flag_false (t : string) :
  is_flag t = false -> String.eqb t "-i" = false /\ String.eqb t "-e" = false.
Proof. unfold is_flag. intros E. apply orb_false_elim in E. exact E. Qed.

Lemma no_flag_app (l1 l2 : list string) :
  no_flag (l1 ++ l2) = no_flag l1 && no_flag l2.
Proof. apply forallb_app. Qed.

Lemma no_flag_rev (l : list string) : no_flag (rev l) = no_flag l.
Proof.
  induction l as [|t l IH]; [reflexivity|].
  simpl. rewrite no_flag_app, IH. simpl.
  rewrite andb_true_r. apply andb_comm.
Qed.

Lemma guid_set_cons (t : string) (ts : list string) :
  guid_set (t :: ts) = collect t (guid_set ts).
Proof.
  unfold guid_set, collect. simpl. destruct (guid_of t); reflexivity.
Qed.

Lemma collect_union (t : string) (a b : gset CLSID) :
  collect t (a ∪ b) = collect t a ∪ b.
Proof.
  unfold collect. destruct (guid_of t); [|reflexivity].
  apply (assoc_L (∪)).
Qed.

Lemma guid_set_app (l1 l2 : list string) :
  guid_set (l1 ++ l2) = guid_set l1 ∪ guid_set l2.
Proof.
  unfold guid_set. rewrite omap_app, list_to_set_app_L. reflexivity.
Qed.

Lemma guid_set_rev (l : list string) : guid_set (rev l) = guid_set l.
Proof.
  induction l as [|t l IH]; [reflexivity|].
  simpl. rewrite guid_set_app, IH.
  change (t :: l) with ([t] ++ l). rewrite guid_set_app.
  apply (comm_L (∪)).
Qed.

(** The scan over a stretch of tokens without a flag only accumulates the
    GUIDs of that stretch. *)
Lemma scan_no_flag (l rest : list string) (acc : gset CLSID) :
  no_flag l = true ->
  parse_filter_scan (l ++ rest) acc = parse_filter_scan rest (guid_set (rev l) ∪ acc).
Proof.
  revert acc. induction l as [|t l IH]; intros acc Hl.
  - simpl. f_equal. symmetry. apply (left_id_L ∅ (∪)).
  - simpl in Hl. apply andb_prop in Hl as [Ht Hl].
    apply negb_true_iff, is_flag_false in Ht as [Hi He].
    simpl. rewrite Hi, He, (IH _ Hl). f_equal.
    rewrite guid_set_app, <- (assoc_L (∪)). f_equal.
    rewrite guid_set_cons. change (guid_set []) with (∅ : gset CLSID).
    rewrite <- collect_union, (left_id_L ∅ (∪)). reflexivity.
Qed.

(** With a flag somewhere, the tokens before the last flag play no part:
    the result is the flag's variant over the GUIDs that follow it. *)
Lemma parse_filter_last_flag (pre post : list string) (flag : string) :
  no_flag post = true ->
  parse_filter (pre ++ flag :: post) =
    parse_filter_scan (flag :: rev pre) (guid_set post).
Proof.
  intros Hpost. unfold parse_filter.
  rewrite rev_app_distr. simpl. rewrite <- app_assoc.
  rewrite scan_no_flag by (rewrite no_flag_rev; exact Hpost).
  rewrite rev_involutive, (right_id_L ∅ (∪)). reflexivity.
Qed.

Lemma parse_filter_no_flag (tokens : list string) :
  no_flag tokens = true ->
  parse_filter tokens =
    if decide (guid_set tokens = ∅) then no_filter
    else including_filter (guid_set tokens).
Proof.
  intros Hno. unfold parse_filter.
  rewrite <- (app_nil_r (rev tokens)).
  rewrite scan_no_flag by (rewrite no_flag_rev; exact Hno).
  rewrite rev_involutive, (right_id_L ∅ (∪)). simpl.
  destruct (decide (guid_set tokens = ∅)) as [E|NE].
  - rewrite E. reflexivity.
  - destruct (Nat.ltb_spec 0 (size (guid_set tokens))) as [Hpos|Hz]; [reflexivity|].
    exfalso. apply NE. apply leibniz_equiv, size_empty_iff. lia.
Qed.

(** A token that is neither a flag nor a parseable GUID leaves the scan
    where it was, so dropping all such tokens changes nothing. *)
Lemma scan_skipped (l : list string) (acc : gset CLSID) :
  parse_filter_scan (List.filter (fun t => negb (is_skipped t)) l) acc =
  parse_filter_scan l acc.
Proof.
  revert acc. induction l as [|t l IH]; intros acc; [reflexivity|].
  simpl. destruct (is_skipped t) eqn:Hs; simpl.
  - unfold is_skipped in Hs. apply andb_prop in Hs as [Hf Hg].
    apply negb_true_iff, is_flag_false in Hf as [Hi He].
    apply bool_decide_eq_true in Hg.
    rewrite Hi, He, IH. unfold collect. rewrite Hg. reflexivity.
  - destruct (String.eqb t "-i"); [reflexivity|].
    destruct (String.eqb t "-e"); [reflexivity|]. apply IH.
Qed.

(** C1 (amended): the flag has to come before the GUID. For a token [t] that
    parses as the GUID [g], the sequences ["-i"; t] and ["-e"; t] yield
    Including({g}) and Excluding({g}); with the flag after the GUID the scan
    from the end meets the flag first and the set is empty, so [t; "-i"] and
    [t; "-e"] yield Including(∅) and Excluding(∅). *)
Theorem parse_filter_flag_position (t : string) (g : CLSID) :
  guid_of t = Some g ->
  is_flag t = false ->
  parse_filter ["-i"; t] = including_filter {[g]} /\
  parse_filter ["-e"; t] = excluding_filter {[g]} /\
  parse_filter [t; "-i"] = including_filter ∅ /\
  parse_filter [t; "-e"] = excluding_filter ∅.
Proof.
  intros Hg Hf. apply is_flag_false in Hf as [Hi He].
  unfold parse_filter. simpl. rewrite Hi, He. simpl.
  unfold collect. rewrite Hg, (right_id_L ∅ (∪)).
  repeat split; reflexivity.
Qed.

(** C8 (amended): the scan goes from the end of the token sequence. Tokens
    that are neither a flag nor a parseable GUID are skipped and change
    nothing in the result. Without any flag token the result is Including
    over the collected GUIDs when there is at least one, and NoFilter when
    there is none. With a flag token the result is the variant of the last
    flag over the GUIDs that follow it, also when that set is empty. *)
Theorem parse_filter_skips_and_defaults (tokens : list string) :
  parse_filter tokens =
    parse_filter (List.filter (fun t => negb (is_skipped t)) tokens) /\
  (no_flag tokens = true ->
   parse_filter tokens =
     if decide (guid_set tokens = ∅) then no_filter
     else including_filter (guid_set tokens)) /\
  (forall pre post : list string,
     no_flag post = true ->
     (tokens = (pre ++ "-i" :: post) ->
      parse_filter tokens = including_filter (guid_set post)) /\
     (tokens = (pre ++ "-e" :: post) ->
      parse_filter tokens = excluding_filter (guid_set post))).
Proof.
  split; [|split].
  - unfold parse_filter. rewrite <- filter_rev. symmetry. apply scan_skipped.
  - apply parse_filter_no_flag.
  - intros pre post Hpost. split; intros ->;
      rewrite parse_filter_last_flag by exact Hpost; reflexivity.
Qed.

End FilterFacts.

(** C1, as stated, fails: with the flag after the GUID the set is empty. *)
Lemma flag_after_guid_counterexample :
  guid_of (codec := Sample.codec) Sample.CLSID_sample_text = Some Sample.CLSID_sample /\
  parse_filter (codec := Sample.codec) [Sample.CLSID_sample_text; "-i"]
    <> including_filter {[Sample.CLSID_sample]}.
Proof.
  split; [reflexivity|].
  change (parse_filter (codec := Sample.codec) [Sample.CLSID_sample_text; "-i"])
    with (including_filter ∅).
  intros E.
  pose proof (f_equal (fun f => match f with
                                | including_filter s => s
                                | _ => ∅
                                end) E) as E'.
  simpl in E'.
  apply (not_elem_of_empty (C := gset CLSID) Sample.CLSID_sample).
  rewrite E'. apply elem_of_singleton. reflexivity.
Qed.

Lemma parse_filter_flag_position_witness :
  parse_filter (codec := Sample.codec) ["-i"; Sample.CLSID_sample_text]
    = including_filter {[Sample.CLSID_sample]} /\
  parse_filter (codec := Sample.codec) ["-e"; Sample.CLSID_sample_text]
    = excluding_filter {[Sample.CLSID_sample]} /\
  parse_filter (codec := Sample.codec) [Sample.CLSID_sample_text; "-i"]
    = including_filter ∅ /\
  parse_filter (codec := Sample.codec) [Sample.CLSID_sample_text; "-e"]
    = excluding_filter ∅.
Proof.
  apply (parse_filter_flag_position (codec := Sample.codec)
           Sample.CLSID_sample_text Sample.CLSID_sample); reflexivity.
Defined.

(** C8, as stated, fails: a flag with no GUID after it does not give
    NoFilter. *)
Lemma lone_flag_counterexample :
  guid_set (codec := Sample.codec) ["-i"] = ∅ /\
  parse_filter (codec := Sample.codec) ["-i"] <> no_filter.
Proof. split; [reflexivity|discriminate]. Qed.

Lemma parse_filter_skips_and_defaults_witness :
  parse_filter (codec := Sample.codec) [Sample.CLSID_sample_text; "verbose"] =
    (if decide (guid_set (codec := Sample.codec) [Sample.CLSID_sample_text; "verbose"] = ∅)
     then no_filter
     else including_filter
            (guid_set (codec := Sample.codec) [Sample.CLSID_sample_text; "verbose"])) /\
  parse_filter (codec := Sample.codec) ["junk"; "-e"; Sample.CLSID_sample_text] =
    excluding_filter (guid_set (codec := Sample.codec) [Sample.CLSID_sample_text]).
Proof.
  split.
  - apply (proj1 (proj2 (parse_filter_skips_and_defaults (codec := Sample.codec)
                           [Sample.CLSID_sample_text; "verbose"]))).
    reflexivity.
  - apply (proj2 (proj2 (proj2 (parse_filter_skips_and_defaults (codec := Sample.codec)
                                  ["junk"; "-e"; Sample.CLSID_sample_text]))
                    ["junk"] [Sample.CLSID_sample_text] eq_refl)).
    reflexivity.
Defined.

(** ** Monitor: registration and breakpoints *)

Section MonitorFacts.
Context {dbg : Debugger}.

Lemma register_vtable_paused (m : comonitor) (clsid : CLSID) (iid : IID)
    (addr : Z) (is64 : bool) :
  is_paused m = true -> register_vtable m clsid iid addr is64 = (Ok tt, m).
Proof. unfold is_paused, register_vtable. intros ->. reflexivity. Qed.

Lemma register_vtable_succeeds (m : comonitor) (clsid : CLSID) (iid : IID)
    (addr : Z) (is64 : bool) :
  fst (register_vtable m clsid iid addr is64) = Ok tt.
Proof.
  unfold register_vtable.
  destruct (paused m); [reflexivity|].
  destruct (filter_decide _ _); [|reflexivity]. simpl.
  destruct (existsb _ _); reflexivity.
Qed.

Lemma register_vtable_keeps_breakpoints (m : comonitor) (clsid : CLSID) (iid : IID)
    (addr : Z) (is64 : bool) :
  breakpoints (snd (register_vtable m clsid iid addr is64)) = breakpoints m.
Proof.
  unfold register_vtable.
  destruct (paused m); [reflexivity|].
  destruct (filter_decide _ _); [|reflexivity]. simpl.
  destruct (existsb _ _); reflexivity.
Qed.

Lemma same_vtable_new (module : wstring) (clsid : CLSID) (iid : IID) (addr : Z)
    (is64 : bool) :
  same_vtable clsid iid addr (mkVtable module clsid iid is64 addr) = true.
Proof.
  unfold same_vtable. simpl.
  rewrite !bool_decide_eq_true_2 by reflexivity. simpl. apply Z.eqb_refl.
Qed.

(** A running monitor whose filter observes the class has the vtable in its
    registry afterwards: appended when it is new, left alone when the same
    (clsid, iid, address) is already there. *)
Lemma register_vtable_running (m : comonitor) (clsid : CLSID) (iid : IID)
    (addr : Z) (is64 : bool) :
  is_paused m = false ->
  filter_decide (mon_filter m) clsid = true ->
  registry (snd (register_vtable m clsid iid addr is64)) =
    (if existsb (same_vtable clsid iid addr) (registry m) then registry m
     else registry m ++ [mkVtable (module_of_address addr) clsid iid is64 addr])
  /\ existsb (same_vtable clsid iid addr)
       (registry (snd (register_vtable m clsid iid addr is64))) = true.
Proof.
  unfold is_paused, register_vtable. intros -> ->. simpl.
  destruct (existsb (same_vtable clsid iid addr) (registry m)) eqn:E; simpl.
  - split; [reflexivity|exact E].
  - split; [reflexivity|].
    rewrite existsb_app, E. simpl. rewrite same_vtable_new. reflexivity.
Qed.

Lemma register_vtable_rejected (m : comonitor) (clsid : CLSID) (iid : IID)
    (addr : Z) (is64 : bool) :
  filter_decide (mon_filter m) clsid = false ->
  register_vtable m clsid iid addr is64 = (Ok tt, m).
Proof.
  unfold register_vtable. intros ->. destruct (paused m); reflexivity.
Qed.

(** Every record [register_vtable] adds carries the bitness it was given. *)
Lemma register_vtable_records (m : comonitor) (clsid : CLSID) (iid : IID)
    (addr : Z) (is64 : bool) (r : VtableRecord) :
  In r (registry (snd (register_vtable m clsid iid addr is64))) ->
  In r (registry m) \/ r = mkVtable (module_of_address addr) clsid iid is64 addr.
Proof.
  unfold register_vtable.
  destruct (paused m); [auto|].
  destruct (filter_decide _ _); [|auto]. simpl.
  destruct (existsb _ _); [auto|]. simpl.
  rewrite in_app_iff. simpl. intuition auto.
Qed.

Lemma find_vtable_none (reg : list VtableRecord) (clsid : CLSID) (iid : IID) :
  (forall r, In r reg -> ~ (vt_clsid r = clsid /\ vt_iid r = iid)) ->
  find_vtable reg clsid iid = None.
Proof.
  intros Hno. unfold find_vtable.
  destruct (List.find (matches clsid iid) reg) as [r|] eqn:E; [|reflexivity].
  apply find_some in E as [Hin Hm]. exfalso. apply (Hno r Hin).
  unfold matches in Hm. apply andb_prop in Hm as [Hc Hi].
  split; [exact (bool_decide_eq_true_1 _ Hc)|exact (bool_decide_eq_true_1 _ Hi)].
Qed.

Lemma create_at_failure (m m' : comonitor) (clsid : CLSID) (iid : IID)
    (sel : method_selector) (k : Z) (e : error) :
  create_at m clsid iid sel k = (Err e, m') -> m' = m.
Proof.
  unfold create_at.
  destruct (find_vtable _ _ _) as [r|]; [|congruence].
  destruct (place_breakpoint _); [discriminate|congruence].
Qed.

Lemma create_cobreakpoint_failure (meta : cometadata) (m m' : comonitor)
    (clsid : CLSID) (iid : IID) (sel : method_selector) (e : error) :
  create_cobreakpoint meta m clsid iid sel = (Err e, m') -> m' = m.
Proof.
  unfold create_cobreakpoint.
  destruct (resolve_selector meta iid sel) as [k|e0]; [|congruence].
  apply create_at_failure.
Qed.

Lemma create_cobreakpoint_unknown_vtable (meta : cometadata) (m : comonitor)
    (clsid : CLSID) (iid : IID) (sel : method_selector) (k : Z) :
  find_vtable (registry m) clsid iid = None ->
  resolve_selector meta iid sel = Ok k ->
  create_cobreakpoint meta m clsid iid sel = (Err UnknownVtable, m).
Proof.
  intros Hv Hr. unfold create_cobreakpoint, create_at. rewrite Hr, Hv. reflexivity.
Qed.

Lemma create_cobreakpoint_refused (meta : cometadata) (m : comonitor)
    (clsid : CLSID) (iid : IID) (sel : method_selector) (addr : Z) :
  breakpoint_address meta m clsid iid sel = Ok addr ->
  place_breakpoint addr = None ->
  create_cobreakpoint meta m clsid iid sel = (Err UnderlyingBreakpointFailure, m).
Proof.
  unfold breakpoint_address, create_cobreakpoint, create_at.
  destruct (resolve_selector meta iid sel) as [k|e]; [|discriminate].
  destruct (find_vtable _ _ _) as [r|]; [|discriminate].
  intros [= <-] ->. reflexivity.
Qed.

(** What a successful creation stores: one more breakpoint, with the id that
    was free, at the address of the selected slot. *)
Lemma create_cobreakpoint_success (meta : cometadata) (m m' : comonitor)
    (clsid : CLSID) (iid : IID) (sel : method_selector) (id : Z) :
  create_cobreakpoint meta m clsid iid sel = (Ok id, m') ->
  exists addr handle,
    breakpoint_address meta m clsid iid sel = Ok addr /\
    place_breakpoint addr = Some handle /\
    id = next_id m /\
    breakpoints m' =
      breakpoints m ++
      [(mkBreakpoint id (describe_breakpoint clsid iid sel) addr, handle)] /\
    registry m' = registry m.
Proof.
  unfold breakpoint_address, create_cobreakpoint, create_at.
  destruct (resolve_selector meta iid sel) as [k|e]; [|discriminate].
  destruct (find_vtable _ _ _) as [r|]; [|discriminate].
  destruct (place_breakpoint _) as [handle|] eqn:Hp; [|discriminate].
  intros [= <- <-]. exists (method_address r k), handle. simpl. auto.
Qed.



End MonitorFacts.

(** ** The command handlers *)

Section HandlerFacts.
Context {codec : GuidCodec} {dbg : Debugger}.

Lemma with_control_ok (dbgclient : IDebugClient) (s : dbgsession) (body : reply) :
  FAILED (QueryInterface dbgclient) = false ->
  with_control dbgclient s body = body.
Proof. unfold with_control. intros ->. reflexivity. Qed.

Lemma with_control_failed (dbgclient : IDebugClient) (s : dbgsession) (body : reply) :
  failed_unchanged s body -> failed_unchanged s (with_control dbgclient s body).
Proof.
  intros Hb. unfold with_control.
  destruct (FAILED (QueryInterface dbgclient)) eqn:E; [|exact Hb].
  exists (QueryInterface dbgclient). auto.
Qed.

Lemma error_reply_failed (hr : HRESULT) (s : dbgsession) (msg : message) :
  FAILED hr = true -> failed_unchanged s (error_reply hr s msg).
Proof. intros Hf. exists hr. auto. Qed.

Lemma failed_not_succeeded (hr : HRESULT) : FAILED hr = negb (SUCCEEDED hr).
Proof.
  unfold FAILED, SUCCEEDED.
  destruct (Z.ltb_spec hr 0), (Z.leb_spec 0 hr); simpl; auto; lia.
Qed.

Lemma with_guids_ok (s : dbgsession) (a0 a1 a2 : string) (rest : list string)
    (clsid : CLSID) (iid : IID) (body : CLSID -> IID -> string -> reply) :
  guid_of a0 = Some clsid ->
  guid_of a1 = Some iid ->
  with_guids s (a0 :: a1 :: a2 :: rest) body = body clsid iid a2.
Proof.
  unfold guid_of, with_guids.
  destruct (try_parse_guid (widen a0)) as [hr0 g0].
  destruct (try_parse_guid (widen a1)) as [hr1 g1].
  rewrite !failed_not_succeeded.
  destruct (SUCCEEDED hr0); [|discriminate].
  destruct (SUCCEEDED hr1); [|discriminate].
  intros [= ->] [= ->]. reflexivity.
Qed.

Lemma with_guids_failed (s : dbgsession) (vargs : list string)
    (body : CLSID -> IID -> string -> reply) :
  (forall clsid iid a2, failed_unchanged s (body clsid iid a2)) ->
  failed_unchanged s (with_guids s vargs body).
Proof.
  intros Hb. unfold with_guids.
  destruct vargs as [|a0 [|a1 [|a2 rest]]];
    try (apply error_reply_failed; reflexivity).
  destruct (try_parse_guid (widen a0)) as [hr0 g0].
  destruct (FAILED hr0) eqn:E0; [exists hr0; auto|].
  destruct (try_parse_guid (widen a1)) as [hr1 g1].
  destruct (FAILED hr1) eqn:E1; [exists hr1; auto|].
  apply Hb.
Qed.

(** An exception that [std::stoul] throws in [cobd] leaves the handler. *)
Lemma cobd_throws (dbgclient : IDebugClient) (args : string) (s : dbgsession)
    (monitor : comonitor) (e : exception) :
  FAILED (QueryInterface dbgclient) = false ->
  find_active_monitor s = Some monitor ->
  stoul args = Thrown e ->
  cobd dbgclient args s = mkReply (Thrown e) s [].
Proof.
  intros Hq Hm He. unfold cobd. rewrite with_control_ok by exact Hq.
  rewrite Hm, He. reflexivity.
Qed.

(** So does one that [std::stoull] throws in [coreg]. *)
Lemma coreg_throws (dbgclient : IDebugClient) (args : string) (s : dbgsession)
    (monitor : comonitor) (a0 a1 a2 : string) (rest : list string)
    (clsid : CLSID) (iid : IID) (e : exception) :
  FAILED (QueryInterface dbgclient) = false ->
  split_args args = a0 :: a1 :: a2 :: rest ->
  guid_of a0 = Some clsid ->
  guid_of a1 = Some iid ->
  find_active_monitor s = Some monitor ->
  stoull a2 = Thrown e ->
  coreg dbgclient args s = mkReply (Thrown e) s [].
Proof.
  intros Hq Hs H0 H1 Hm He. unfold coreg.
  rewrite with_control_ok by exact Hq.
  rewrite Hs, (with_guids_ok _ _ _ _ _ _ _ _ H0 H1), Hm, He. reflexivity.
Qed.

Lemma cobp_by_index (dbgclient : IDebugClient) (args : string) (s : dbgsession)
    (monitor : comonitor) (a0 a1 a2 : string) (rest : list string)
    (clsid : CLSID) (iid : IID) (n : Z) :
  FAILED (QueryInterface dbgclient) = false ->
  split_args args = a0 :: a1 :: a2 :: rest ->
  guid_of a0 = Some clsid ->
  guid_of a1 = Some iid ->
  find_active_monitor s = Some monitor ->
  stoul a2 = Returned n ->
  cobp dbgclient args s =
    monitor_reply s
      (create_cobreakpoint (get_metadata s) monitor clsid iid (ByIndex n)).
Proof.
  intros Hq Hs H0 H1 Hm Hn. unfold cobp.
  rewrite with_control_ok by exact Hq.
  rewrite Hs, (with_guids_ok _ _ _ _ _ _ _ _ H0 H1), Hm, Hn. reflexivity.
Qed.


Lemma coreg_registers (dbgclient : IDebugClient) (args : string) (s : dbgsession)
    (monitor : comonitor) (a0 a1 a2 : string) (rest : list string)
    (clsid : CLSID) (iid : IID) (vtable_addr : Z) :
  FAILED (QueryInterface dbgclient) = false ->
  split_args args = a0 :: a1 :: a2 :: rest ->
  guid_of a0 = Some clsid ->
  guid_of a1 = Some iid ->
  find_active_monitor s = Some monitor ->
  stoull a2 = Returned vtable_addr ->
  coreg dbgclient args s =
    monitor_reply s (register_vtable monitor clsid iid vtable_addr false).
Proof.
  intros Hq Hs H0 H1 Hm Hn. unfold coreg.
  rewrite with_control_ok by exact Hq.
  rewrite Hs, (with_guids_ok _ _ _ _ _ _ _ _ H0 H1), Hm, Hn. reflexivity.
Qed.

Lemma comon_subcommand (dbgclient : IDebugClient) (args : string) (s : dbgsession)
    (a0 : string) (rest : list string) :
  FAILED (QueryInterface dbgclient) = false ->
  split_args args = a0 :: rest ->
  comon dbgclient args s =
    match find_active_monitor s with
    | Some monitor =>
        if String.eqb a0 "attach" then
          error_reply E_FAIL s monitor_already_enabled_error
        else if String.eqb a0 "pause" then
          mkReply (Returned S_OK) (with_monitor s (Some (pause monitor))) []
        else if String.eqb a0 "resume" then
          mkReply (Returned S_OK) (with_monitor s (Some (resume monitor))) []
        else if String.eqb a0 "detach" then
          mkReply (Returned S_OK) (detach s) []
        else if String.eqb a0 "status" then
          mkReply (Returned S_OK) s (print_status (get_metadata s) monitor)
        else error_reply E_INVALIDARG s invalid_arguments_error
    | None =>
        if String.eqb a0 "attach" then
          mkReply (Returned S_OK) (snd (attach s (parse_filter rest)))
            ((DEBUG_OUTPUT_NORMAL, monitor_enabled_message)
             :: print_filter (parse_filter rest))
        else error_reply E_FAIL s monitor_not_enabled_error
    end.
Proof.
  intros Hq Hs. unfold comon. rewrite with_control_ok by exact Hq.
  rewrite Hs. reflexivity.
Qed.

(** [cobl] and [comon] convert nothing, so they always return an HRESULT. *)
Lemma cobl_comon_return (dbgclient : IDebugClient) (args : string) (s : dbgsession) :
  (exists hr, returned (cobl dbgclient args s) = Returned hr) /\
  (exists hr, returned (comon dbgclient args s) = Returned hr).
Proof.
  unfold cobl, comon, with_control. split.
  - destruct (FAILED (QueryInterface dbgclient)); [eauto|].
    destruct (find_active_monitor s); simpl; eauto.
  - destruct (FAILED (QueryInterface dbgclient)); [eauto|].
    destruct (split_args args) as [|a0 rest]; [simpl; eauto|].
    destruct (find_active_monitor s);
      repeat (destruct (String.eqb a0 _); [simpl; eauto|]); simpl; eauto.
Qed.

End HandlerFacts.

(** ** Session lifecycle *)

Section Lifecycle.
Context {codec : GuidCodec} {dbg : Debugger}.

Lemma attach_fresh (s : dbgsession) (f : cofilter) :
  find_active_monitor s = None ->
  attach s f = (Ok tt, with_monitor s (Some (new_monitor f))).
Proof. unfold find_active_monitor, attach. intros ->. reflexivity. Qed.

Lemma attach_active (s : dbgsession) (f : cofilter) (monitor : comonitor) :
  find_active_monitor s = Some monitor ->
  attach s f = (Err AlreadyAttached, s).
Proof. unfold find_active_monitor, attach. intros ->. reflexivity. Qed.

(** C4 (amended): while a monitor is Paused every [register_vtable] call is
    a no-op that reports success, so records and breakpoints stay as they
    are; pausing itself removes neither. After [resume], delivering the same
    observation again puts the record into the registry provided the
    monitor's filter observes the class. A monitor is Running right after
    attach, and the [pause] and [resume] subcommands of [comon] switch the
    active monitor between the two states. *)
Theorem paused_monitor_drops_observations
    (m : comonitor) (clsid : CLSID) (iid : IID) (addr : Z) (is64 : bool) :
  is_paused m = true ->
  register_vtable m clsid iid addr is64 = (Ok tt, m) /\
  (filter_decide (mon_filter m) clsid = true ->
   let after := register_vtable (resume m) clsid iid addr is64 in
   fst after = Ok tt /\
   existsb (same_vtable clsid iid addr) (registry (snd after)) = true /\
   (existsb (same_vtable clsid iid addr) (registry m) = false ->
    registry (snd after) =
      registry m ++ [mkVtable (module_of_address addr) clsid iid is64 addr]) /\
   breakpoints (snd after) = breakpoints m) /\
  (forall m0 : comonitor,
     is_paused (pause m0) = true /\ is_paused (resume m0) = false /\
     registry (pause m0) = registry m0 /\
     breakpoints (pause m0) = breakpoints m0) /\
  (forall (s : dbgsession) (f : cofilter),
     find_active_monitor s = None ->
     find_active_monitor (snd (attach s f)) = Some (new_monitor f) /\
     is_paused (new_monitor f) = false) /\
  (forall (dbgclient : IDebugClient) (args : string) (s : dbgsession)
          (monitor : comonitor) (rest : list string),
     FAILED (QueryInterface dbgclient) = false ->
     find_active_monitor s = Some monitor ->
     (split_args args = "pause" :: rest ->
      comon dbgclient args s =
        mkReply (Returned S_OK) (with_monitor s (Some (pause monitor))) []) /\
     (split_args args = "resume" :: rest ->
      comon dbgclient args s =
        mkReply (Returned S_OK) (with_monitor s (Some (resume monitor))) [])).
Proof.
  intros Hp. split; [|split; [|split; [|split]]].
  - apply register_vtable_paused, Hp.
  - intros Hf. cbv zeta.
    destruct (register_vtable_running (resume m) clsid iid addr is64 eq_refl Hf)
      as [Hreg Hin].
    split; [apply register_vtable_succeeds|].
    split; [exact Hin|].
    split; [|rewrite register_vtable_keeps_breakpoints; reflexivity].
    intros Hnew. rewrite Hreg. simpl. rewrite Hnew. reflexivity.
  - intros m0. repeat split; reflexivity.
  - intros s f Hs. rewrite (attach_fresh s f Hs). split; reflexivity.
  - intros dbgclient args s monitor rest Hq Hm.
    split; intros Hs; rewrite (comon_subcommand _ _ _ _ _ Hq Hs), Hm; reflexivity.
Qed.

(** C5: whatever the filter arguments, attach with a monitor already active
    fails with AlreadyAttached; the [comon attach] command reports it as
    E_FAIL with an error message, and the session with its monitor stays as
    it was. With no monitor active, attach constructs a new monitor with the
    given filter and makes it active; the command builds that filter from
    the tokens after [attach]. *)
Theorem attach_twice_is_refused
    (dbgclient : IDebugClient) (args : string) (s : dbgsession)
    (rest : list string) (f : cofilter) :
  FAILED (QueryInterface dbgclient) = false ->
  split_args args = "attach" :: rest ->
  (forall monitor : comonitor,
     find_active_monitor s = Some monitor ->
     attach s f = (Err AlreadyAttached, s) /\
     comon dbgclient args s = error_reply E_FAIL s monitor_already_enabled_error /\
     failed_unchanged s (comon dbgclient args s)) /\
  (find_active_monitor s = None ->
   attach s f = (Ok tt, with_monitor s (Some (new_monitor f))) /\
   find_active_monitor (snd (attach s f)) = Some (new_monitor f) /\
   mon_filter (new_monitor f) = f /\
   comon dbgclient args s =
     mkReply (Returned S_OK)
       (with_monitor s (Some (new_monitor (parse_filter rest))))
       ((DEBUG_OUTPUT_NORMAL, monitor_enabled_message)
        :: print_filter (parse_filter rest))).
Proof.
  intros Hq Hs. split.
  - intros monitor Hm.
    assert (Hc : comon dbgclient args s =
                 error_reply E_FAIL s monitor_already_enabled_error).
    { rewrite (comon_subcommand _ _ _ _ _ Hq Hs), Hm. reflexivity. }
    split; [exact (attach_active s f monitor Hm)|].
    split; [exact Hc|].
    rewrite Hc. apply error_reply_failed. reflexivity.
  - intros Hm. rewrite (attach_fresh s f Hm).
    repeat split.
    rewrite (comon_subcommand _ _ _ _ _ Hq Hs), Hm. simpl.
    rewrite (attach_fresh s _ Hm). reflexivity.
Qed.

(** C6: detach never fails (it returns no error) and leaves the session
    not attached, whatever the state before: after an attach, twice in a
    row, or on a session that was never attached, where it changes nothing.
    Unloading the extension is exactly a detach, so it is safe after an
    explicit detach as well. *)
Theorem detach_idempotent (s : dbgsession) :
  find_active_monitor (detach s) = None /\
  detach (detach s) = detach s /\
  get_metadata (detach s) = get_metadata s /\
  (forall meta : cometadata, detach (mkSession None meta) = mkSession None meta) /\
  DebugExtensionUninitialize s = detach s /\
  find_active_monitor (DebugExtensionUninitialize (detach s)) = None /\
  DebugExtensionUninitialize (detach s) = detach s.
Proof.
  destruct s as [[m|] meta]; repeat split; reflexivity.
Qed.

End Lifecycle.

(** ** Breakpoints and registration through the commands *)

Section Breakpoints.
Context {codec : GuidCodec} {dbg : Debugger}.

(** In a method list without repeated names, the position [index_of] finds
    is the index the name is listed at. *)
Lemma index_of_position (name : wstring) (methods : list wstring) (k : nat) :
  NoDup methods ->
  nth_error methods k = Some name ->
  index_of name methods = Some (Z.of_nat k).
Proof.
  revert k. induction methods as [|m rest IH]; intros k Hnd Hk.
  - destruct k; discriminate.
  - apply NoDup_cons in Hnd as [Hnot Hnd'].
    destruct k as [|k]; simpl in *.
    + injection Hk as ->. rewrite String.eqb_refl. reflexivity.
    + destruct (String.eqb_spec m name) as [-> | Hne].
      * exfalso. apply Hnot. apply list_elem_of_In.
        apply nth_error_In with k. exact Hk.
      * rewrite (IH k Hnd' Hk). simpl. f_equal. lia.
Qed.


(** Creation failures under the order of checks modelled here (the
    selector is resolved before the registry is consulted; the spec names
    both checks without ordering them): with no vtable record matching
    (clsid, iid) in the registry, [create_cobreakpoint] fails with
    UnknownVtable for every selector that resolves to a method index (every numeric index, and every
    name found in the interface's method list); a name that does not resolve
    fails before that, with MethodNotFound. When the debugger refuses to
    place the real breakpoint the creation fails as well. Every failing
    creation leaves the monitor, and so its breakpoint records, as they
    were. *)
Theorem create_cobreakpoint_failures
    (meta : cometadata) (m : comonitor) (clsid : CLSID) (iid : IID)
    (sel : method_selector) :
  (forall r, In r (registry m) -> ~ (vt_clsid r = clsid /\ vt_iid r = iid)) ->
  (forall n : Z,
     create_cobreakpoint meta m clsid iid (ByIndex n) = (Err UnknownVtable, m)) /\
  (forall k : Z,
     resolve_selector meta iid sel = Ok k ->
     create_cobreakpoint meta m clsid iid sel = (Err UnknownVtable, m)) /\
  (exists e : error, create_cobreakpoint meta m clsid iid sel = (Err e, m)) /\
  (forall (m1 m2 : comonitor) (c : CLSID) (i : IID) (sl : method_selector)
          (e : error),
     create_cobreakpoint meta m1 c i sl = (Err e, m2) ->
     m2 = m1 /\ list_breakpoints m2 = list_breakpoints m1) /\
  (forall (m1 : comonitor) (c : CLSID) (i : IID) (sl : method_selector)
          (addr : Z),
     breakpoint_address meta m1 c i sl = Ok addr ->
     place_breakpoint addr = None ->
     create_cobreakpoint meta m1 c i sl = (Err UnderlyingBreakpointFailure, m1)).
Proof.
  intros Hno. apply find_vtable_none in Hno.
  split; [|split; [|split; [|split]]].
  - intros n. apply (create_cobreakpoint_unknown_vtable meta m clsid iid _ n Hno).
    reflexivity.
  - intros k Hk. exact (create_cobreakpoint_unknown_vtable meta m clsid iid sel k Hno Hk).
  - destruct (resolve_selector meta iid sel) as [k|e] eqn:Hr.
    + exists UnknownVtable.
      exact (create_cobreakpoint_unknown_vtable meta m clsid iid sel k Hno Hr).
    + exists e. unfold create_cobreakpoint. rewrite Hr. reflexivity.
  - intros m1 m2 c i sl e Hc.
    apply create_cobreakpoint_failure in Hc. subst m2. auto.
  - intros m1 c i sl addr. apply create_cobreakpoint_refused.
Qed.

(** C9 (amended): with no monitor attached, cobp, cobl, cobd and coreg
    return a failure code for every argument string and leave the session
    as it was. When [QueryInterface] for the control interface fails, that
    failure is what each of them returns. Otherwise cobl and cobd report
    E_FAIL with the "monitor not enabled" message whatever the arguments,
    while cobp and coreg check their arguments first: fewer than three
    tokens give E_INVALIDARG with the usage error, a first or second token
    that does not parse as a GUID gives the failure code of the GUID parser
    with nothing printed, and only with three tokens of which the first two
    parse do they report E_FAIL with the "monitor not enabled" message. *)
Theorem commands_without_monitor
    (dbgclient : IDebugClient) (args : string) (s : dbgsession) :
  find_active_monitor s = None ->
  (failed_unchanged s (cobp dbgclient args s) /\
   failed_unchanged s (cobl dbgclient args s) /\
   failed_unchanged s (cobd dbgclient args s) /\
   failed_unchanged s (coreg dbgclient args s)) /\
  (FAILED (QueryInterface dbgclient) = true ->
   cobp dbgclient args s = mkReply (Returned (QueryInterface dbgclient)) s [] /\
   cobl dbgclient args s = mkReply (Returned (QueryInterface dbgclient)) s [] /\
   cobd dbgclient args s = mkReply (Returned (QueryInterface dbgclient)) s [] /\
   coreg dbgclient args s = mkReply (Returned (QueryInterface dbgclient)) s []) /\
  (FAILED (QueryInterface dbgclient) = false ->
   cobl dbgclient args s = error_reply E_FAIL s monitor_not_enabled_error /\
   cobd dbgclient args s = error_reply E_FAIL s monitor_not_enabled_error /\
   ((length (split_args args) < 3)%nat ->
    cobp dbgclient args s = error_reply E_INVALIDARG s invalid_arguments_error /\
    coreg dbgclient args s = error_reply E_INVALIDARG s invalid_arguments_error) /\
   (forall (a0 a1 a2 : string) (rest : list string),
      split_args args = a0 :: a1 :: a2 :: rest ->
      (forall (hr : HRESULT) (g : GUID),
         try_parse_guid (widen a0) = (hr, g) ->
         FAILED hr = true ->
         cobp dbgclient args s = mkReply (Returned hr) s [] /\
         coreg dbgclient args s = mkReply (Returned hr) s []) /\
      (forall (clsid : CLSID) (hr : HRESULT) (g : GUID),
         guid_of a0 = Some clsid ->
         try_parse_guid (widen a1) = (hr, g) ->
         FAILED hr = true ->
         cobp dbgclient args s = mkReply (Returned hr) s [] /\
         coreg dbgclient args s = mkReply (Returned hr) s []) /\
      (forall (clsid : CLSID) (iid : IID),
         guid_of a0 = Some clsid ->
         guid_of a1 = Some iid ->
         cobp dbgclient args s = error_reply E_FAIL s monitor_not_enabled_error /\
         coreg dbgclient args s = error_reply E_FAIL s monitor_not_enabled_error))).
Proof.
  intros Hm. split; [|split].
  - unfold cobp, cobl, cobd, coreg. rewrite Hm.
    repeat split; apply with_control_failed;
      try apply with_guids_failed; intros;
      apply error_reply_failed; reflexivity.
  - intros Hq. unfold cobp, cobl, cobd, coreg, with_control. rewrite Hq.
    repeat split.
  - intros Hq. unfold cobp, cobl, cobd, coreg.
    rewrite !with_control_ok by exact Hq. rewrite Hm.
    split; [reflexivity|]. split; [reflexivity|]. split.
    + intros Hlen.
      destruct (split_args args) as [|a0 [|a1 [|a2 rest]]];
        try (split; reflexivity).
      simpl in Hlen. lia.
    + intros a0 a1 a2 rest Hs. rewrite Hs. split; [|split].
      * intros hr g Hp Hf. unfold with_guids. rewrite Hp, Hf. split; reflexivity.
      * intros clsid hr g H0 Hp Hf. unfold with_guids. unfold guid_of in H0.
        destruct (try_parse_guid (widen a0)) as [hr0 g0].
        rewrite failed_not_succeeded.
        destruct (SUCCEEDED hr0); [|discriminate]. simpl.
        rewrite Hp, Hf. split; reflexivity.
      * intros clsid iid H0 H1.
        rewrite !(with_guids_ok _ _ _ _ _ _ _ _ H0 H1). split; reflexivity.
Qed.

(** C10: every registration that [coreg] issues hands [false] to
    [register_vtable] as the bitness, whatever the target and the address:
    a record it adds is marked 32-bit, and a breakpoint address derived from
    such a record steps through the vtable four bytes per slot. *)
Theorem coreg_registers_32bit
    (dbgclient : IDebugClient) (args : string) (s : dbgsession)
    (monitor : comonitor) (a0 a1 a2 : string) (rest : list string)
    (clsid : CLSID) (iid : IID) (vtable_addr : Z) :
  FAILED (QueryInterface dbgclient) = false ->
  split_args args = a0 :: a1 :: a2 :: rest ->
  guid_of a0 = Some clsid ->
  guid_of a1 = Some iid ->
  find_active_monitor s = Some monitor ->
  stoull a2 = Returned vtable_addr ->
  let after := register_vtable monitor clsid iid vtable_addr false in
  coreg dbgclient args s = monitor_reply s after /\
  find_active_monitor (session (coreg dbgclient args s)) = Some (snd after) /\
  (forall r : VtableRecord,
     In r (registry (snd after)) ->
     In r (registry monitor) \/
     (r = mkVtable (module_of_address vtable_addr) clsid iid false vtable_addr /\
      is_64bit r = false /\ pointer_width r = 4 /\
      forall k : Z, method_address r k = vtable_addr + k * 4)) /\
  (is_paused monitor = false ->
   filter_decide (mon_filter monitor) clsid = true ->
   existsb (same_vtable clsid iid vtable_addr) (registry monitor) = false ->
   registry (snd after) =
     registry monitor ++
     [mkVtable (module_of_address vtable_addr) clsid iid false vtable_addr]).
Proof.
  intros Hq Hs H0 H1 Hm Hn after.
  pose proof (coreg_registers _ _ _ _ _ _ _ _ _ _ _ Hq Hs H0 H1 Hm Hn) as Hc.
  split; [exact Hc|]. split; [rewrite Hc; reflexivity|]. split.
  - intros r Hr. apply register_vtable_records in Hr as [Hold | ->]; [left; exact Hold|].
    right. repeat split.
  - intros Hrun Hf Hnew.
    destruct (register_vtable_running monitor clsid iid vtable_addr false Hrun Hf)
      as [Hreg _].
    subst after. rewrite Hreg, Hnew. reflexivity.
Qed.

End Breakpoints.

(** ** The statements on concrete sessions *)

Section Concrete.
Import Sample.
#[local] Existing Instance codec.
#[local] Existing Instance debugger.

(** C2 (the code at the failing inputs): with a monitor attached, [cobd] on
    a breakpoint id that is not a number and [coreg] on an address that is
    not a number do not return an HRESULT: the [std::invalid_argument] of
    the conversion leaves the handler. [cobp] catches that exception only,
    so a selector too large for [unsigned long] leaves it with
    [std::out_of_range]. *)
Theorem exceptions_escape_handlers :
  cobd client "abc" (attached no_filter)
    = mkReply (Thrown invalid_argument) (attached no_filter) [] /\
  coreg client (command_line "vtable") (attached no_filter)
    = mkReply (Thrown invalid_argument) (attached no_filter) [] /\
  cobp client (command_line "99999999999") (attached no_filter)
    = mkReply (Thrown out_of_range) (attached no_filter) [].
Proof.
  split; [|split].
  - apply cobd_throws with (observed no_filter); reflexivity.
  - apply coreg_throws
      with (observed no_filter) CLSID_sample_text IID_IUnknown_text "vtable"
           (@nil string) CLSID_sample IID_IUnknown;
      reflexivity.
  - vm_compute. reflexivity.
Qed.


(** C4, as stated, fails: a class the filter excludes is not recorded after
    resume either. *)
Lemma resumed_monitor_filter_counterexample :
  is_paused (pause (new_monitor (excluding_filter {[CLSID_sample]}))) = true /\
  registry
    (snd (register_vtable
            (resume (pause (new_monitor (excluding_filter {[CLSID_sample]}))))
            CLSID_sample IID_IUnknown 4096 true)) = [].
Proof.
  split; [reflexivity|].
  rewrite register_vtable_rejected; [reflexivity|].
  simpl. apply bool_decide_eq_false. intros Hn. apply Hn.
  apply elem_of_singleton. reflexivity.
Qed.

Lemma paused_monitor_drops_observations_witness :
  register_vtable (pause (observed no_filter)) CLSID_sample IID_IUnknown 4096 true
    = (Ok tt, pause (observed no_filter)) /\
  registry
    (snd (register_vtable (resume (pause (observed no_filter)))
            CLSID_sample IID_IUnknown 4096 true))
    = [sample_vtable; mkVtable "combase" CLSID_sample IID_IUnknown true 4096] /\
  comon client "pause" (attached no_filter)
    = mkReply (Returned S_OK)
        (with_monitor (attached no_filter) (Some (pause (observed no_filter)))) [].
Proof.
  pose proof (paused_monitor_drops_observations (pause (observed no_filter))
                CLSID_sample IID_IUnknown 4096 true eq_refl)
    as (Hnoop & Hafter & _ & _ & Hcmd).
  split; [exact Hnoop|]. split.
  - apply (Hafter eq_refl). reflexivity.
  - apply (Hcmd client "pause" (attached no_filter) (observed no_filter) []);
      reflexivity.
Defined.

Lemma attach_twice_is_refused_witness :
  comon client ("attach -i " +:+ CLSID_sample_text) (attached no_filter)
    = error_reply E_FAIL (attached no_filter) monitor_already_enabled_error /\
  find_active_monitor
    (session (comon client ("attach -i " +:+ CLSID_sample_text) fresh))
    = Some (new_monitor (parse_filter ["-i"; CLSID_sample_text])).
Proof.
  pose proof (attach_twice_is_refused client ("attach -i " +:+ CLSID_sample_text)
                (attached no_filter) ["-i"; CLSID_sample_text] no_filter
                eq_refl eq_refl) as [Hactive _].
  pose proof (attach_twice_is_refused client ("attach -i " +:+ CLSID_sample_text)
                fresh ["-i"; CLSID_sample_text] no_filter
                eq_refl eq_refl) as [_ Hfresh].
  split.
  - apply (Hactive (observed no_filter) eq_refl).
  - destruct (Hfresh eq_refl) as (_ & _ & _ & ->). reflexivity.
Defined.

(** Under the modelled order of checks, with an empty registry a name
    that the metadata does not list fails with MethodNotFound, not
    UnknownVtable. *)
Lemma unresolved_name_counterexample :
  registry (new_monitor no_filter) = [] /\
  fst (create_cobreakpoint meta (new_monitor no_filter) CLSID_sample IID_IUnknown
         (ByName "Invoke")) = Err MethodNotFound /\
  fst (create_cobreakpoint meta (new_monitor no_filter) CLSID_sample IID_IUnknown
         (ByName "Invoke")) <> Err UnknownVtable.
Proof. split; [reflexivity|]. split; [reflexivity|discriminate]. Qed.

Lemma create_cobreakpoint_failures_witness :
  create_cobreakpoint meta (new_monitor no_filter) CLSID_sample IID_IUnknown
    (ByIndex 3) = (Err UnknownVtable, new_monitor no_filter) /\
  create_cobreakpoint meta (new_monitor no_filter) CLSID_sample IID_IUnknown
    (ByName "Release") = (Err UnknownVtable, new_monitor no_filter) /\
  create_cobreakpoint (dbg := refusing_debugger) meta (observed no_filter)
    CLSID_sample IID_IUnknown (ByIndex 3)
    = (Err UnderlyingBreakpointFailure, observed no_filter).
Proof.
  assert (Hempty : forall r, In r (registry (new_monitor no_filter)) ->
                             ~ (vt_clsid r = CLSID_sample /\ vt_iid r = IID_IUnknown))
    by (intros r []).
  pose proof (create_cobreakpoint_failures meta (new_monitor no_filter)
                CLSID_sample IID_IUnknown (ByName "Release") Hempty)
    as (Hindex & Hresolved & _ & _ & _).
  pose proof (create_cobreakpoint_failures (dbg := refusing_debugger) meta
                (new_monitor no_filter) CLSID_sample IID_IUnknown (ByIndex 3) Hempty)
    as (_ & _ & _ & _ & Hrefused).
  split; [|split].
  - apply Hindex.
  - apply (Hresolved 2). reflexivity.
  - apply (Hrefused (observed no_filter) CLSID_sample IID_IUnknown (ByIndex 3)
             (140700000000000 + 3 * 8)); reflexivity.
Defined.

(** C9, as stated, fails: with no monitor attached and no arguments, cobp
    answers E_INVALIDARG, not E_FAIL. *)
Lemma cobp_without_arguments_counterexample :
  find_active_monitor fresh = None /\
  returned (cobp client "" fresh) = Returned E_INVALIDARG /\
  returned (cobp client "" fresh) <> Returned E_FAIL.
Proof. split; [reflexivity|]. split; [reflexivity|discriminate]. Qed.

Lemma commands_without_monitor_witness :
  failed_unchanged fresh (cobp client "" fresh) /\
  cobd client "abc" fresh = error_reply E_FAIL fresh monitor_not_enabled_error /\
  coreg client (command_line "4096") fresh
    = error_reply E_FAIL fresh monitor_not_enabled_error /\
  cobp client "" fresh = error_reply E_INVALIDARG fresh invalid_arguments_error /\
  cobp client "IUnknown IUnknown 2" fresh = mkReply (Returned E_INVALIDARG) fresh [] /\
  cobl (mkClient E_FAIL) "" fresh = mkReply (Returned E_FAIL) fresh [].
Proof.
  pose proof (commands_without_monitor client "" fresh eq_refl)
    as ((Hcobp & _) & _ & Hempty).
  pose proof (commands_without_monitor client "abc" fresh eq_refl)
    as (_ & _ & Hcobd).
  pose proof (commands_without_monitor client (command_line "4096") fresh eq_refl)
    as (_ & _ & Hcoreg).
  pose proof (commands_without_monitor client "IUnknown IUnknown 2" fresh eq_refl)
    as (_ & _ & Hguid).
  pose proof (commands_without_monitor (mkClient E_FAIL) "" fresh eq_refl)
    as (_ & Hrefused & _).
  split; [exact Hcobp|]. split; [apply (Hcobd eq_refl)|]. split.
  { destruct (Hcoreg eq_refl) as (_ & _ & _ & Hargs).
    destruct (Hargs CLSID_sample_text IID_IUnknown_text "4096" [] eq_refl)
      as (_ & _ & Hboth).
    apply (Hboth CLSID_sample IID_IUnknown); reflexivity. }
  split.
  { destruct (Hempty eq_refl) as (_ & _ & Hshort & _).
    apply Hshort. vm_compute. lia. }
  split.
  { destruct (Hguid eq_refl) as (_ & _ & _ & Hargs).
    destruct (Hargs "IUnknown" "IUnknown" "2" [] eq_refl) as (Hfirst & _).
    apply (Hfirst E_INVALIDARG GUID_NULL); reflexivity. }
  apply (Hrefused eq_refl).
Defined.

Lemma coreg_registers_32bit_witness :
  find_active_monitor
    (session (coreg client (command_line "4096") (mkSession (Some (new_monitor no_filter)) meta)))
    = Some (mkMonitor no_filter
              [mkVtable "combase" CLSID_sample IID_IUnknown false 4096] [] 0 false) /\
  method_address (mkVtable "combase" CLSID_sample IID_IUnknown false 4096) 2
    = 4096 + 2 * 4.
Proof.
  pose proof (coreg_registers_32bit client (command_line "4096")
                (mkSession (Some (new_monitor no_filter)) meta)
                (new_monitor no_filter)
                CLSID_sample_text IID_IUnknown_text "4096" []
                CLSID_sample IID_IUnknown 4096
                eq_refl eq_refl eq_refl eq_refl eq_refl eq_refl)
    as (_ & Hmon & Hrec & _).
  split.
  - rewrite Hmon. reflexivity.
  - destruct (Hrec (mkVtable "combase" CLSID_sample IID_IUnknown false 4096))
      as [[] | (_ & _ & _ & Haddr)].
    + left. reflexivity.
    + apply Haddr.
Defined.

End Concrete.

(** ** The tokenizer *)

Section SplitFacts.

Lemma chars_app (a b : string) :
  list_ascii_of_string (a +:+ b) = list_ascii_of_string a ++ list_ascii_of_string b.
Proof. induction a as [|c a IH]; simpl; [reflexivity|]. rewrite IH. reflexivity. Qed.

Lemma append_cons (c : ascii) (a b : string) : String c a +:+ b = String c (a +:+ b).
Proof. reflexivity. Qed.

Lemma append_nil_r (a : string) : a +:+ "" = a.
Proof.
  induction a as [|c a IH]; [reflexivity|]. rewrite append_cons, IH. reflexivity.
Qed.

Lemma append_assoc (a b c : string) : (a +:+ b) +:+ c = a +:+ (b +:+ c).
Proof.
  induction a as [|x a IH]; [reflexivity|]. rewrite !append_cons, IH. reflexivity.
Qed.

Lemma push_back_not_empty (tok : string) (c : ascii) : is_empty (push_back tok c) = false.
Proof. destruct tok; reflexivity. Qed.

Lemma is_empty_true (s : string) : is_empty s = true -> s = "".
Proof. destruct s; [reflexivity|discriminate]. Qed.

(** The fold of [split_args] and its reading from the front agree. *)
Lemma fold_tokens_from (cs : list ascii) (st : split_state) :
  vargs (flush (fold_left split_step cs st)) =
    vargs st ++ tokens_from (citation_char st) (token st) cs.
Proof.
  revert st. induction cs as [|c cs IH]; intros [q v tok]; simpl.
  - unfold flush. simpl. destruct (is_empty tok); simpl.
    + rewrite app_nil_r. reflexivity.
    + reflexivity.
  - rewrite IH. unfold split_step, flush. simpl.
    destruct (Ascii.eqb_spec q NUL) as [-> | Hq]; simpl.
    + destruct (Ascii.eqb c dquote || Ascii.eqb c squote); [reflexivity|].
      destruct (isspace c || Ascii.eqb c comma); [|reflexivity].
      destruct tok; simpl; [reflexivity|].
      rewrite <- app_assoc. reflexivity.
    + destruct (Ascii.eqb c q); [|reflexivity].
      destruct tok; simpl; [reflexivity|].
      rewrite <- app_assoc. reflexivity.
Qed.

Lemma split_args_tokens_from (args : string) :
  split_args args = tokens_from NUL "" (list_ascii_of_string args).
Proof. unfold split_args. rewrite fold_tokens_from. reflexivity. Qed.

Lemma chars_push_back (tok : string) (c : ascii) :
  list_ascii_of_string (push_back tok c) = list_ascii_of_string tok ++ [c].
Proof. unfold push_back. rewrite chars_app. reflexivity. Qed.

Lemma tokens_from_not_empty (cs : list ascii) (q : ascii) (tok t : string) :
  In t (tokens_from q tok cs) -> t <> "".
Proof.
  revert q tok. induction cs as [|c cs IH]; intros q tok; simpl.
  - destruct tok; simpl; [tauto|]. intros [<- | []]. discriminate.
  - destruct (negb (Ascii.eqb q NUL)).
    + destruct (Ascii.eqb c q); [|apply IH].
      destruct tok; simpl; [apply IH|].
      intros [<- | Hin]; [discriminate|exact (IH _ _ Hin)].
    + destruct (Ascii.eqb c dquote || Ascii.eqb c squote); [apply IH|].
      destruct (isspace c || Ascii.eqb c comma); [|apply IH].
      destruct tok; simpl; [apply IH|].
      intros [<- | Hin]; [discriminate|exact (IH _ _ Hin)].
Qed.

Lemma tokens_from_chars (cs : list ascii) (q : ascii) (tok t : string) (x : ascii) :
  In t (tokens_from q tok cs) ->
  In x (list_ascii_of_string t) ->
  In x (list_ascii_of_string tok) \/ In x cs.
Proof.
  revert q tok. induction cs as [|c cs IH]; intros q tok; simpl.
  - destruct tok; simpl; [tauto|]. intros [<- | []]. auto.
  - assert (Hpush : In t (tokens_from q (push_back tok c) cs) ->
                    In x (list_ascii_of_string t) ->
                    In x (list_ascii_of_string tok) \/ c = x \/ In x cs).
    { intros Hin Hx. destruct (IH _ _ Hin Hx) as [Hp | Hc]; [|auto].
      rewrite chars_push_back, in_app_iff in Hp. simpl in Hp. tauto. }
    assert (Hpush0 : In t (tokens_from NUL (push_back tok c) cs) ->
                     In x (list_ascii_of_string t) ->
                     In x (list_ascii_of_string tok) \/ c = x \/ In x cs).
    { intros Hin Hx. destruct (IH _ _ Hin Hx) as [Hp | Hc]; [|auto].
      rewrite chars_push_back, in_app_iff in Hp. simpl in Hp. tauto. }
    assert (Hnext : forall q', In t (tokens_from q' "" cs) ->
                    In x (list_ascii_of_string t) ->
                    In x (list_ascii_of_string tok) \/ c = x \/ In x cs).
    { intros q' Hin Hx. destruct (IH _ _ Hin Hx) as [[] | Hc]. auto. }
    assert (Hflush : In t (if is_empty tok then tokens_from NUL "" cs
                           else tok :: tokens_from NUL "" cs) ->
                     In x (list_ascii_of_string t) ->
                     In x (list_ascii_of_string tok) \/ c = x \/ In x cs).
    { destruct (is_empty tok); [apply Hnext|].
      intros [<- | Hin] Hx; [auto|exact (Hnext _ Hin Hx)]. }
    destruct (negb (Ascii.eqb q NUL)).
    + destruct (Ascii.eqb c q); [exact Hflush|exact Hpush].
    + destruct (Ascii.eqb c dquote || Ascii.eqb c squote).
      * intros Hin Hx. destruct (IH _ _ Hin Hx); auto.
      * destruct (isspace c || Ascii.eqb c comma); [exact Hflush|exact Hpush0].
Qed.

(** X1: whatever the argument text, [split_args] never yields an empty
    token, and every character of a token is a character of the text. *)
Theorem split_args_tokens (args t : string) :
  In t (split_args args) ->
  t <> "" /\
  forall x : ascii,
    In x (list_ascii_of_string t) -> In x (list_ascii_of_string args).
Proof.
  rewrite split_args_tokens_from. intros Hin. split.
  - exact (tokens_from_not_empty _ _ _ _ Hin).
  - intros x Hx. destruct (tokens_from_chars _ _ _ _ x Hin Hx) as [[] | Hc].
    exact Hc.
Qed.

(** Outside a quotation, one step of the loop looks at the separator test
    only. *)
Lemma tokens_from_unquoted_step (c : ascii) (rest : list ascii) (tok : string) :
  is_quote c = false ->
  tokens_from NUL tok (c :: rest) =
    if is_separator c then
      if is_empty tok then tokens_from NUL "" rest
      else tok :: tokens_from NUL "" rest
    else tokens_from NUL (push_back tok c) rest.
Proof. unfold is_quote, is_separator. intros Hq. simpl. rewrite Hq. reflexivity. Qed.

Lemma concat_cons (x : string) (l : list string) :
  String.concat "" (x :: l) = x +:+ String.concat "" l.
Proof. destruct l; simpl; [rewrite append_nil_r; reflexivity|reflexivity]. Qed.

Lemma tokens_from_unquoted (cs : list ascii) (tok : string) :
  forallb (fun c => negb (is_quote c)) cs = true ->
  (forallb is_plain (list_ascii_of_string tok) = true ->
   Forall (fun t => forallb is_plain (list_ascii_of_string t) = true)
     (tokens_from NUL tok cs)) /\
  String.concat "" (tokens_from NUL tok cs) =
    tok +:+ string_of_list_ascii (List.filter (fun c => negb (is_separator c)) cs).
Proof.
  revert tok. induction cs as [|c cs IH]; intros tok Hcs.
  - simpl. split.
    + intros Htok. destruct tok; simpl; constructor; [exact Htok|constructor].
    + rewrite append_nil_r. destruct tok; reflexivity.
  - simpl in Hcs. apply andb_prop in Hcs as [Hc Hcs].
    apply negb_true_iff in Hc.
    rewrite (tokens_from_unquoted_step c cs tok Hc). simpl List.filter.
    destruct (is_separator c) eqn:Hsep; simpl negb; cbv iota.
    + destruct (IH "" Hcs) as [Hplain Hcat]. split.
      * intros Htok. destruct (is_empty tok) eqn:He.
        -- apply Hplain. reflexivity.
        -- constructor; [exact Htok|apply Hplain; reflexivity].
      * destruct (is_empty tok) eqn:He.
        -- apply is_empty_true in He. subst tok. exact Hcat.
        -- rewrite concat_cons, Hcat. reflexivity.
    + destruct (IH (push_back tok c) Hcs) as [Hplain Hcat]. split.
      * intros Htok. apply Hplain. rewrite chars_push_back, forallb_app, Htok.
        simpl. unfold is_plain. rewrite Hc, Hsep. reflexivity.
      * rewrite Hcat. unfold push_back. rewrite append_assoc. reflexivity.
Qed.

(** X2: in a text without quotation marks the tokens are the runs of
    characters between separators: no token holds a separator or is empty,
    and the tokens put together are the text with its separators removed. *)
Theorem split_args_unquoted (args : string) :
  unquoted args = true ->
  Forall (fun t => bare t = true) (split_args args) /\
  String.concat "" (split_args args) =
    string_of_list_ascii
      (List.filter (fun c => negb (is_separator c)) (list_ascii_of_string args)).
Proof.
  intros Hu. rewrite split_args_tokens_from.
  destruct (tokens_from_unquoted (list_ascii_of_string args) "" Hu) as [Hplain Hcat].
  split; [|exact Hcat].
  specialize (Hplain eq_refl). rewrite Forall_forall in *. intros t Ht.
  unfold bare. rewrite (Hplain t Ht), andb_true_r.
  apply list_elem_of_In in Ht.
  pose proof (tokens_from_not_empty _ _ _ _ Ht) as Hne.
  destruct t; [congruence|reflexivity].
Qed.

Lemma separator_not_quote (c : ascii) : is_separator c = true -> is_quote c = false.
Proof.
  destruct c as [[] [] [] [] [] [] [] []]; try reflexivity; discriminate.
Qed.

Lemma plain_not_quote (cs : list ascii) :
  forallb is_plain cs = true -> forallb (fun c => negb (is_quote c)) cs = true.
Proof.
  induction cs as [|c cs IH]; [reflexivity|]. simpl. intros H.
  apply andb_prop in H as [Hc Hcs]. unfold is_plain in Hc.
  apply andb_prop in Hc as [Hq _]. rewrite Hq, (IH Hcs). reflexivity.
Qed.

Lemma tokens_from_app_separator (a : list ascii) (tok : string) (sep : ascii)
    (b : list ascii) :
  forallb (fun c => negb (is_quote c)) a = true ->
  is_separator sep = true ->
  tokens_from NUL tok (a ++ sep :: b) =
    tokens_from NUL tok a ++ tokens_from NUL "" b.
Proof.
  intros Ha Hsep. revert tok Ha. induction a as [|c a IH]; intros tok Ha.
  - rewrite app_nil_l, (tokens_from_unquoted_step sep b tok (separator_not_quote _ Hsep)).
    rewrite Hsep. simpl. destruct (is_empty tok); reflexivity.
  - simpl in Ha. apply andb_prop in Ha as [Hc Ha]. apply negb_true_iff in Hc.
    rewrite <- app_comm_cons, !(tokens_from_unquoted_step c _ tok Hc).
    destruct (is_separator c).
    + destruct (is_empty tok); rewrite (IH "" Ha); reflexivity.
    + apply IH. exact Ha.
Qed.

(** X3: a separator after a text without quotation marks splits the work:
    the tokens of the whole are the tokens of the part before it followed
    by the tokens of the part after it. *)
Theorem split_args_at_separator (a : string) (sep : ascii) (b : string) :
  unquoted a = true ->
  is_separator sep = true ->
  split_args (a +:+ String sep b) = split_args a ++ split_args b.
Proof.
  intros Ha Hsep. rewrite !split_args_tokens_from, chars_app. simpl.
  apply tokens_from_app_separator; assumption.
Qed.

Lemma tokens_from_plain (cs : list ascii) (tok : string) :
  forallb is_plain cs = true ->
  is_empty (tok +:+ string_of_list_ascii cs) = false ->
  tokens_from NUL tok cs = [tok +:+ string_of_list_ascii cs].
Proof.
  revert tok. induction cs as [|c cs IH]; intros tok Hcs Hne.
  - simpl in *. rewrite append_nil_r in *. rewrite Hne. reflexivity.
  - simpl in Hcs. apply andb_prop in Hcs as [Hc Hcs]. unfold is_plain in Hc.
    apply andb_prop in Hc as [Hq Hs].
    apply negb_true_iff in Hq. apply negb_true_iff in Hs.
    rewrite (tokens_from_unquoted_step c cs tok Hq), Hs.
    assert (E : push_back tok c +:+ string_of_list_ascii cs =
                tok +:+ string_of_list_ascii (c :: cs)).
    { unfold push_back. rewrite append_assoc. reflexivity. }
    rewrite <- E. apply IH; [exact Hcs|]. rewrite E. exact Hne.
Qed.

Lemma split_args_bare (t : string) : bare t = true -> split_args t = [t].
Proof.
  unfold bare. intros H. apply andb_prop in H as [Hne Hplain].
  apply negb_true_iff in Hne.
  rewrite split_args_tokens_from, (tokens_from_plain _ "" Hplain).
  - simpl. rewrite string_of_list_ascii_of_string. reflexivity.
  - simpl. rewrite string_of_list_ascii_of_string. exact Hne.
Qed.

Lemma bare_unquoted (t : string) : bare t = true -> unquoted t = true.
Proof.
  unfold bare, unquoted. intros H. apply andb_prop in H as [_ Hplain].
  apply plain_not_quote. exact Hplain.
Qed.

(** X4: writing tokens that need no quoting with one separator between them
    and splitting the line gives the tokens back, the same for a space, a
    tab or a comma. *)
Theorem split_args_join (sep : ascii) (ts : list string) :
  is_separator sep = true ->
  forallb bare ts = true ->
  split_args (join sep ts) = ts.
Proof.
  intros Hsep. induction ts as [|t ts IH]; intros Hts; [reflexivity|].
  simpl in Hts. apply andb_prop in Hts as [Ht Hts].
  destruct ts as [|t' ts].
  - simpl. apply split_args_bare. exact Ht.
  - change (join sep (t :: t' :: ts)) with (t +:+ String sep (join sep (t' :: ts))).
    rewrite (split_args_at_separator t sep _ (bare_unquoted t Ht) Hsep).
    rewrite (split_args_bare t Ht), (IH Hts). reflexivity.
Qed.

Lemma quote_not_nul (q : ascii) : is_quote q = true -> Ascii.eqb q NUL = false.
Proof.
  destruct q as [[] [] [] [] [] [] [] []]; try reflexivity; discriminate.
Qed.

Lemma tokens_from_quoted (body : list ascii) (q : ascii) (tok : string) :
  is_quote q = true ->
  forallb (fun c => negb (Ascii.eqb c q)) body = true ->
  (forall tail : list ascii,
     tokens_from q tok (body ++ q :: tail) =
       (if is_empty (tok +:+ string_of_list_ascii body) then []
        else [tok +:+ string_of_list_ascii body])
       ++ tokens_from NUL "" tail) /\
  tokens_from q tok body =
    (if is_empty (tok +:+ string_of_list_ascii body) then []
     else [tok +:+ string_of_list_ascii body]).
Proof.
  intros Hq. pose proof (quote_not_nul q Hq) as Hnul.
  revert tok. induction body as [|c body IH]; intros tok Hbody.
  - simpl. rewrite Hnul, Ascii.eqb_refl, append_nil_r. simpl.
    split; [intros tail|]; destruct (is_empty tok); reflexivity.
  - simpl in Hbody. apply andb_prop in Hbody as [Hc Hbody].
    apply negb_true_iff in Hc.
    assert (E : push_back tok c +:+ string_of_list_ascii body =
                tok +:+ string_of_list_ascii (c :: body)).
    { unfold push_back. rewrite append_assoc. reflexivity. }
    destruct (IH (push_back tok c) Hbody) as [IHclosed IHopen].
    split; [intros tail|].
    + rewrite <- app_comm_cons. simpl tokens_from. rewrite Hnul, Hc. simpl negb.
      cbv iota. rewrite IHclosed, E. reflexivity.
    + simpl tokens_from. rewrite Hnul, Hc. simpl negb. cbv iota.
      rewrite IHopen, E. reflexivity.
Qed.

(** A quotation mark at the start of the text opens a token that runs to the
    next mark of the same kind and keeps every character in between, separators and the
    other kind of mark included; an empty quotation yields no token. After
    the closing mark the rest of the line is split on its own. A quotation
    that is never closed runs to the end of the line. *)
Theorem split_args_quoted (q : ascii) (body tail : string) :
  is_quote q = true ->
  forallb (fun c => negb (Ascii.eqb c q)) (list_ascii_of_string body) = true ->
  split_args (String q (body +:+ String q tail)) =
    (if is_empty body then [] else [body]) ++ split_args tail /\
  split_args (String q body) = (if is_empty body then [] else [body]).
Proof.
  intros Hq Hbody.
  destruct (tokens_from_quoted (list_ascii_of_string body) q "" Hq Hbody)
    as [Hclosed Hopen].
  assert (Hstart : forall rest, tokens_from NUL "" (q :: rest) = tokens_from q "" rest).
  { intros rest. simpl. unfold is_quote in Hq. rewrite Hq. reflexivity. }
  rewrite !split_args_tokens_from. simpl list_ascii_of_string.
  rewrite chars_app. simpl list_ascii_of_string.
  rewrite !Hstart, Hclosed, Hopen. simpl.
  rewrite string_of_list_ascii_of_string. split; reflexivity.
Qed.

Lemma split_args_blank (args : string) : blank args = true -> split_args args = [].
Proof.
  unfold blank. rewrite split_args_tokens_from.
  induction (list_ascii_of_string args) as [|c cs IH]; [reflexivity|].
  simpl forallb. intros H. apply andb_prop in H as [Hc Hcs].
  rewrite (tokens_from_unquoted_step c cs "" (separator_not_quote c Hc)), Hc.
  simpl. apply IH. exact Hcs.
Qed.

End SplitFacts.

(** ** More on filter construction *)

Section FilterShape.
Context {codec : GuidCodec}.

(** A token sequence with a flag splits at its last flag. *)
Lemma last_flag_split (tokens : list string) :
  no_flag tokens = false ->
  exists pre flag post,
    tokens = pre ++ flag :: post /\ is_flag flag = true /\ no_flag post = true.
Proof.
  induction tokens as [|t l IH]; [discriminate|].
  intros Hf. destruct (no_flag l) eqn:Hl.
  - exists [], t, l. simpl in Hf. fold (no_flag l) in Hf. rewrite Hl, andb_true_r in Hf.
    apply negb_false_iff in Hf. auto.
  - destruct (IH eq_refl) as (pre & flag & post & -> & Hflag & Hpost).
    exists (t :: pre), flag, post. auto.
Qed.

Lemma scan_at_flag (flag : string) (rest : list string) (clsids : gset CLSID) :
  is_flag flag = true ->
  parse_filter_scan (flag :: rest) clsids =
    if String.eqb flag "-i" then including_filter clsids
    else excluding_filter clsids.
Proof.
  unfold is_flag. intros Hf. simpl.
  destruct (String.eqb flag "-i"); [reflexivity|].
  simpl in Hf. rewrite Hf. reflexivity.
Qed.

(** X6: the result is NoFilter exactly when the tokens hold no flag and no
    token that parses as a GUID; in particular GUIDs that are all mistyped
    leave the monitor without any filter. *)
Theorem parse_filter_no_filter_iff (tokens : list string) :
  parse_filter tokens = no_filter <->
  no_flag tokens = true /\ guid_set tokens = ∅.
Proof.
  split.
  - intros Hp. destruct (no_flag tokens) eqn:Hf.
    + split; [reflexivity|].
      rewrite (parse_filter_no_flag tokens Hf) in Hp.
      destruct (decide (guid_set tokens = ∅)); [assumption|discriminate].
    + exfalso. destruct (last_flag_split tokens Hf)
        as (pre & flag & post & -> & Hflag & Hpost).
      rewrite (parse_filter_last_flag pre post flag Hpost) in Hp.
      rewrite (scan_at_flag flag _ _ Hflag) in Hp.
      destruct (String.eqb flag "-i"); discriminate.
  - intros [Hf Hg]. rewrite (parse_filter_no_flag tokens Hf), Hg.
    destruct (decide (∅ = ∅)) as [_ | Hne]; [reflexivity|].
    exfalso. apply Hne. reflexivity.
Qed.

Lemma guid_set_same_tokens (l1 l2 : list string) :
  (forall t, In t l1 <-> In t l2) -> guid_set l1 = guid_set l2.
Proof.
  intros Hsame. unfold guid_set. apply set_eq. intros g.
  rewrite !elem_of_list_to_set, !list_elem_of_omap.
  split; intros (t & Ht & Hg); exists t; split; try exact Hg;
    apply list_elem_of_In; apply list_elem_of_In in Ht; apply Hsame; exact Ht.
Qed.

Lemma no_flag_same_tokens (l1 l2 : list string) :
  (forall t, In t l1 <-> In t l2) -> no_flag l1 = true -> no_flag l2 = true.
Proof.
  unfold no_flag. rewrite !forallb_forall. intros Hsame H1 t Ht.
  apply H1, Hsame, Ht.
Qed.

(** X7: among the tokens that count, order and repetition do not matter.
    Two flag-free sequences with the same tokens give the same filter, and
    so do two sequences that share the last flag and have the same tokens
    after it, whatever stands before the flag. *)
Theorem parse_filter_same_tokens (l1 l2 : list string) :
  no_flag l1 = true ->
  (forall t, In t l1 <-> In t l2) ->
  parse_filter l1 = parse_filter l2 /\
  forall (pre1 pre2 : list string) (flag : string),
    is_flag flag = true ->
    parse_filter (pre1 ++ flag :: l1) = parse_filter (pre2 ++ flag :: l2).
Proof.
  intros H1 Hsame.
  pose proof (no_flag_same_tokens l1 l2 Hsame H1) as H2.
  pose proof (guid_set_same_tokens l1 l2 Hsame) as Hg.
  split.
  - rewrite (parse_filter_no_flag l1 H1), (parse_filter_no_flag l2 H2), Hg.
    reflexivity.
  - intros pre1 pre2 flag Hflag.
    rewrite (parse_filter_last_flag pre1 l1 flag H1),
            (parse_filter_last_flag pre2 l2 flag H2),
            !(scan_at_flag flag _ _ Hflag), Hg.
    reflexivity.
Qed.

End FilterShape.

(** X8: the report of a filter names every CLSID of its set exactly once,
    under the header of its kind, and nothing else; without a filter it
    prints nothing. *)
Theorem print_filter_lists_set (clsids : gset CLSID) :
  print_filter no_filter = [] /\
  (forall f header,
     (f = including_filter clsids /\ header = including_header) \/
     (f = excluding_filter clsids /\ header = excluding_header) ->
     exists lines,
       print_filter f = (DEBUG_OUTPUT_NORMAL, header) :: lines /\
       NoDup lines /\
       length lines = size clsids /\
       (forall line, In line lines <->
          exists clsid, clsid ∈ clsids /\
                        line = (DEBUG_OUTPUT_NORMAL, filter_clsid_line clsid))).
Proof.
  split; [reflexivity|].
  intros f header Hf.
  exists (map (fun clsid => (DEBUG_OUTPUT_NORMAL, filter_clsid_line clsid))
            (elements clsids)).
  split; [destruct Hf as [[-> ->] | [-> ->]]; reflexivity|].
  split; [|split].
  - apply NoDup_ListNoDup, Finite.Injective_map_NoDup.
    + intros a b [= ->]. reflexivity.
    + apply NoDup_ListNoDup, NoDup_elements.
  - rewrite length_map. reflexivity.
  - intros line. rewrite in_map_iff. split.
    + intros (clsid & <- & Hin). exists clsid. split; [|reflexivity].
      apply elem_of_elements, list_elem_of_In. exact Hin.
    + intros (clsid & Hin & ->). exists clsid. split; [reflexivity|].
      apply list_elem_of_In, elem_of_elements. exact Hin.
Qed.

(** ** More on number conversion *)

Section ConversionEdges.

Lemma skip_spaces_blank (ws rest : string) :
  forallb isspace (list_ascii_of_string ws) = true ->
  skip_spaces (ws +:+ rest) = skip_spaces rest.
Proof.
  induction ws as [|c ws IH]; [reflexivity|].
  intros H. simpl in H. apply andb_prop in H as [Hc Hws].
  rewrite append_cons. simpl. rewrite Hc. apply IH. exact Hws.
Qed.

(** Leading white space is skipped by the conversions. *)
Lemma strtou_leading_space (bits : Z) (ws rest : string) :
  forallb isspace (list_ascii_of_string ws) = true ->
  strtou bits (ws +:+ rest) = strtou bits rest.
Proof.
  intros Hws. unfold strtou. rewrite (skip_spaces_blank ws rest Hws). reflexivity.
Qed.

Lemma strtou_empty (bits : Z) : strtou bits "" = Thrown invalid_argument.
Proof. reflexivity. Qed.

Lemma numeral_digits (n : Z) :
  0 <= n ->
  N.to_uint (Z.to_N n) <> Decimal.Nil /\
  uint_value (N.to_uint (Z.to_N n)) 0 = n /\
  numeral n = NilEmpty.string_of_uint (N.to_uint (Z.to_N n)).
Proof.
  intros Hn.
  assert (Hnil : N.to_uint (Z.to_N n) <> Decimal.Nil).
  { destruct (Z.to_N n); simpl; [discriminate|].
    apply DecimalPos.Unsigned.to_uint_nonnil. }
  split; [exact Hnil|]. split.
  - rewrite <- of_uint_value.
    change (Pos.of_uint (N.to_uint (Z.to_N n))) with (N.of_uint (N.to_uint (Z.to_N n))).
    rewrite DecimalN.Unsigned.of_to. lia.
  - unfold numeral, NilZero.string_of_uint.
    destruct (N.to_uint (Z.to_N n)); try reflexivity. congruence.
Qed.

(** A numeral too large for the type makes the conversion throw
    [std::out_of_range]. *)
Lemma strtou_numeral_overflow (bits n : Z) :
  0 <= n -> 2 ^ bits <= n -> strtou bits (numeral n) = Thrown out_of_range.
Proof.
  intros Hn Hbig. destruct (numeral_digits n Hn) as (Hnil & Hval & ->).
  rewrite (strtou_uint bits _ Hnil), Hval.
  destruct (Z.leb_spec (2 ^ bits) n); [reflexivity|lia].
Qed.

Lemma read_digits_uint_suffix (d : Decimal.uint) (acc : Z) (c : ascii) (tail : string) :
  digit_value c = None ->
  read_digits (NilEmpty.string_of_uint d +:+ String c tail) (Some acc) =
    Some (uint_value d acc).
Proof.
  intros Hc. revert acc.
  induction d; intros acc; simpl NilEmpty.string_of_uint;
    [simpl; rewrite Hc; reflexivity|..];
    rewrite append_cons; simpl; rewrite IHd; do 2 f_equal;
    match goal with
    | |- context [char_code ?x - 48] =>
        let v := eval vm_compute in (char_code x - 48) in
        change (char_code x - 48) with v
    end; lia.
Qed.

(** The conversions stop at the first character that is not a digit and
    ignore what follows. *)
Lemma strtou_numeral_suffix (bits n : Z) (c : ascii) (tail : string) :
  0 <= n < 2 ^ bits ->
  digit_value c = None ->
  strtou bits (numeral n +:+ String c tail) = Returned n.
Proof.
  intros Hn Hc. destruct (numeral_digits n (proj1 Hn)) as (Hnil & Hval & ->).
  assert (Hgen : forall d, d <> Decimal.Nil ->
            strtou bits (NilEmpty.string_of_uint d +:+ String c tail) =
              if 2 ^ bits <=? uint_value d 0 then Thrown out_of_range
              else Returned (uint_value d 0)).
  { intros d Hd. unfold strtou.
    destruct d; try congruence; simpl NilEmpty.string_of_uint;
      rewrite append_cons; simpl;
      rewrite (read_digits_uint_suffix _ _ c tail Hc); reflexivity. }
  rewrite (Hgen _ Hnil), Hval.
  destruct (Z.leb_spec (2 ^ bits) n); [lia|reflexivity].
Qed.

(** A minus sign negates in the unsigned type. *)
Lemma strtou_negative (bits n : Z) :
  0 < n < 2 ^ bits ->
  strtou bits (String "-" (numeral n)) = Returned (2 ^ bits - n).
Proof.
  intros Hn.
  assert (H0 : 0 <= n) by lia.
  destruct (numeral_digits n H0) as (Hnil & Hval & Hnum).
  unfold strtou. simpl skip_spaces. cbv iota. cbv beta.
  assert (Hread : read_digits (numeral n) None = Some n).
  { pose proof (strtou_numeral bits n (conj H0 (proj2 Hn))) as Hs.
    unfold strtou in Hs. rewrite Hnum in *.
    destruct (N.to_uint (Z.to_N n)); try congruence; simpl in Hs |- *;
      rewrite read_digits_uint in Hs |- *; f_equal;
      destruct (2 ^ bits <=? _); congruence. }
  rewrite Hread.
  destruct (Z.leb_spec (2 ^ bits) n); [lia|].
  rewrite Z.mod_small by lia. reflexivity.
Qed.

End ConversionEdges.

(** ** Edge behaviour of the handlers *)

Section HandlerEdges.
Context {codec : GuidCodec} {dbg : Debugger}.

(** X11: with a monitor attached, [cobd] on an argument text that is empty,
    is only white space, or starts (after white space) with a character
    that is neither a sign nor a digit lets [std::invalid_argument] leave
    the handler; the session is as it was. *)
Theorem cobd_without_number
    (dbgclient : IDebugClient) (ws rest : string) (s : dbgsession)
    (monitor : comonitor) :
  FAILED (QueryInterface dbgclient) = false ->
  find_active_monitor s = Some monitor ->
  forallb isspace (list_ascii_of_string ws) = true ->
  rest = "" \/
  (exists c tail, rest = String c tail /\ isspace c = false /\
                  c <> "-"%char /\ c <> "+"%char /\ digit_value c = None) ->
  cobd dbgclient (ws +:+ rest) s = mkReply (Thrown invalid_argument) s [].
Proof.
  intros Hq Hm Hws Hrest.
  apply (cobd_throws dbgclient _ s monitor invalid_argument Hq Hm).
  unfold stoul. rewrite (strtou_leading_space 32 ws rest Hws).
  destruct Hrest as [-> | (c & tail & -> & Hs & Hmi & Hpl & Hd)].
  - apply strtou_empty.
  - apply strtou_not_a_number; assumption.
Qed.

(** X12: a number too large for the type it is converted to leaves the
    handler as [std::out_of_range]: a selector of [cobp] or a breakpoint id
    of [cobd] from 2^32 on, an address of [coreg] from 2^64 on. The session
    is as it was. *)
Theorem numbers_out_of_range
    (dbgclient : IDebugClient) (args : string) (s : dbgsession)
    (monitor : comonitor) (a0 a1 a2 : string) (rest : list string)
    (clsid : CLSID) (iid : IID) (n : Z) :
  FAILED (QueryInterface dbgclient) = false ->
  find_active_monitor s = Some monitor ->
  split_args args = a0 :: a1 :: a2 :: rest ->
  guid_of a0 = Some clsid ->
  guid_of a1 = Some iid ->
  a2 = numeral n ->
  (2 ^ 32 <= n -> cobp dbgclient args s = mkReply (Thrown out_of_range) s []) /\
  (2 ^ 32 <= n ->
   cobd dbgclient (numeral n) s = mkReply (Thrown out_of_range) s []) /\
  (2 ^ 64 <= n -> coreg dbgclient args s = mkReply (Thrown out_of_range) s []).
Proof.
  intros Hq Hm Hs H0 H1 ->. split; [|split]; intros Hn.
  - unfold cobp. rewrite with_control_ok by exact Hq.
    rewrite Hs, (with_guids_ok _ _ _ _ _ _ _ _ H0 H1), Hm.
    unfold stoul. rewrite strtou_numeral_overflow by lia. reflexivity.
  - apply (cobd_throws dbgclient _ s monitor out_of_range Hq Hm).
    unfold stoul. apply strtou_numeral_overflow; lia.
  - apply (coreg_throws dbgclient args s monitor a0 a1 _ rest clsid iid
             out_of_range Hq Hs H0 H1 Hm).
    unfold stoull. apply strtou_numeral_overflow; lia.
Qed.

(** X13: the conversion reads a number from the front of the text and
    ignores the rest. A selector of [cobp] that starts with the numeral of n
    selects slot n even when other characters follow, and [cobd] removes
    breakpoint n when text follows the number; a selector written as minus n
    selects slot 2^32 - n. *)
Theorem numeric_prefix_is_used
    (dbgclient : IDebugClient) (args : string) (s : dbgsession)
    (monitor : comonitor) (a0 a1 a2 : string) (rest : list string)
    (clsid : CLSID) (iid : IID) (n : Z) (c : ascii) (tail : string) :
  FAILED (QueryInterface dbgclient) = false ->
  find_active_monitor s = Some monitor ->
  split_args args = a0 :: a1 :: a2 :: rest ->
  guid_of a0 = Some clsid ->
  guid_of a1 = Some iid ->
  0 < n < 2 ^ 32 ->
  digit_value c = None ->
  (a2 = numeral n +:+ String c tail ->
   cobp dbgclient args s =
     monitor_reply s
       (create_cobreakpoint (get_metadata s) monitor clsid iid (ByIndex n))) /\
  (a2 = String "-" (numeral n) ->
   cobp dbgclient args s =
     monitor_reply s
       (create_cobreakpoint (get_metadata s) monitor clsid iid
          (ByIndex (2 ^ 32 - n)))) /\
  cobd dbgclient (numeral n +:+ String c tail) s =
    monitor_reply s (remove_cobreakpoint monitor n).
Proof.
  intros Hq Hm Hs H0 H1 Hn Hc. split; [|split].
  - intros ->. apply (cobp_by_index _ _ _ _ _ _ _ _ _ _ _ Hq Hs H0 H1 Hm).
    unfold stoul. apply strtou_numeral_suffix; [lia|exact Hc].
  - intros ->. apply (cobp_by_index _ _ _ _ _ _ _ _ _ _ _ Hq Hs H0 H1 Hm).
    unfold stoul. apply strtou_negative. exact Hn.
  - unfold cobd. rewrite with_control_ok by exact Hq. rewrite Hm.
    unfold stoul. rewrite strtou_numeral_suffix by (try lia; exact Hc).
    reflexivity.
Qed.

(** X14: [cobp] and [coreg] check the number of tokens before anything
    else: with fewer than three they print the usage error and return
    E_INVALIDARG, monitor or not, and change nothing. Tokens after the third
    are never looked at. *)
Theorem cobp_coreg_token_count
    (dbgclient : IDebugClient) (args : string) (s : dbgsession) :
  FAILED (QueryInterface dbgclient) = false ->
  ((length (split_args args) < 3)%nat ->
   cobp dbgclient args s = error_reply E_INVALIDARG s invalid_arguments_error /\
   coreg dbgclient args s = error_reply E_INVALIDARG s invalid_arguments_error) /\
  (forall (args' : string) (a0 a1 a2 : string) (rest : list string),
     split_args args = a0 :: a1 :: a2 :: rest ->
     split_args args' = [a0; a1; a2] ->
     cobp dbgclient args s = cobp dbgclient args' s /\
     coreg dbgclient args s = coreg dbgclient args' s).
Proof.
  intros Hq. unfold cobp, coreg. rewrite !with_control_ok by exact Hq. split.
  - intros Hlen.
    destruct (split_args args) as [|a0 [|a1 [|a2 rest]]];
      try (split; reflexivity).
    simpl in Hlen. lia.
  - intros args' a0 a1 a2 rest Hs Hs'.
    rewrite !with_control_ok by exact Hq. rewrite Hs, Hs'. split; reflexivity.
Qed.

(** X15: when one of the two GUID tokens does not parse, [cobp] and [coreg]
    return the HRESULT of [try_parse_guid] itself, print nothing and change
    nothing; the first token is checked before the second, and both before
    the monitor and the third token. *)
Theorem cobp_coreg_malformed_guid
    (dbgclient : IDebugClient) (args : string) (s : dbgsession)
    (a0 a1 a2 : string) (rest : list string) (hr : HRESULT) (g : GUID) :
  FAILED (QueryInterface dbgclient) = false ->
  split_args args = a0 :: a1 :: a2 :: rest ->
  FAILED hr = true ->
  (try_parse_guid (widen a0) = (hr, g) ->
   cobp dbgclient args s = mkReply (Returned hr) s [] /\
   coreg dbgclient args s = mkReply (Returned hr) s []) /\
  (forall clsid : CLSID,
     guid_of a0 = Some clsid ->
     try_parse_guid (widen a1) = (hr, g) ->
     cobp dbgclient args s = mkReply (Returned hr) s [] /\
     coreg dbgclient args s = mkReply (Returned hr) s []).
Proof.
  intros Hq Hs Hf. unfold cobp, coreg.
  rewrite !with_control_ok by exact Hq. rewrite Hs. unfold with_guids. split.
  - intros ->. rewrite Hf. split; reflexivity.
  - intros clsid H0 H1. unfold guid_of in H0.
    destruct (try_parse_guid (widen a0)) as [hr0 g0].
    rewrite failed_not_succeeded.
    destruct (SUCCEEDED hr0); [|discriminate]. simpl.
    rewrite H1, Hf. split; reflexivity.
Qed.

(** X16: with no monitor attached, [comon] accepts [attach] only: any other
    first token, [detach], [pause], [resume] and [status] included, prints
    that the monitor is not enabled and returns E_FAIL, and the session is
    as it was. *)
Theorem comon_needs_attach
    (dbgclient : IDebugClient) (args : string) (s : dbgsession)
    (a0 : string) (rest : list string) :
  FAILED (QueryInterface dbgclient) = false ->
  find_active_monitor s = None ->
  split_args args = a0 :: rest ->
  a0 <> "attach" ->
  comon dbgclient args s = error_reply E_FAIL s monitor_not_enabled_error.
Proof.
  intros Hq Hm Hs Ha.
  rewrite (comon_subcommand _ _ _ _ _ Hq Hs), Hm.
  apply String.eqb_neq in Ha. rewrite Ha. reflexivity.
Qed.

(** X17: with a monitor attached, [comon] knows five subcommands, matched
    exactly; any other first token prints the usage error and returns
    E_INVALIDARG, and [status] returns S_OK with the state of the monitor as
    the first line printed. Both leave the session as it was. *)
Theorem comon_subcommands_attached
    (dbgclient : IDebugClient) (args : string) (s : dbgsession)
    (monitor : comonitor) (a0 : string) (rest : list string) :
  FAILED (QueryInterface dbgclient) = false ->
  find_active_monitor s = Some monitor ->
  split_args args = a0 :: rest ->
  (~ In a0 ["attach"; "pause"; "resume"; "detach"; "status"] ->
   comon dbgclient args s = error_reply E_INVALIDARG s invalid_arguments_error) /\
  (a0 = "status" ->
   returned (comon dbgclient args s) = Returned S_OK /\
   session (comon dbgclient args s) = s /\
   head (printed (comon dbgclient args s)) =
     Some (DEBUG_OUTPUT_NORMAL, status_line (is_paused monitor))).
Proof.
  intros Hq Hm Hs. rewrite (comon_subcommand _ _ _ _ _ Hq Hs), Hm. split.
  - intros Hnot. simpl in Hnot.
    repeat match goal with
    | |- context [String.eqb a0 ?x] =>
        destruct (String.eqb_spec a0 x); [exfalso; apply Hnot; auto 10|]
    end.
    reflexivity.
  - intros ->. simpl. repeat split.
Qed.

(** X18: an argument text that holds separators only, the empty text
    included, has no tokens; [comon], [cobp] and [coreg] answer it with the
    usage error and E_INVALIDARG whatever the state of the session, and
    change nothing. *)
Theorem blank_arguments
    (dbgclient : IDebugClient) (args : string) (s : dbgsession) :
  FAILED (QueryInterface dbgclient) = false ->
  blank args = true ->
  split_args args = [] /\
  comon dbgclient args s = error_reply E_INVALIDARG s invalid_arguments_error /\
  cobp dbgclient args s = error_reply E_INVALIDARG s invalid_arguments_error /\
  coreg dbgclient args s = error_reply E_INVALIDARG s invalid_arguments_error.
Proof.
  intros Hq Hb. pose proof (split_args_blank args Hb) as Hs.
  split; [exact Hs|].
  unfold comon, cobp, coreg. rewrite !with_control_ok by exact Hq.
  rewrite Hs. repeat split.
Qed.

End HandlerEdges.

(** ** The metadata command *)

Section CometaFacts.
Context {codec : GuidCodec} {store : MetadataStore}.

Lemma cometa_tokens (dbgclient : IDebugClient) (args : string) (s : dbgsession)
    (a0 : string) (rest : list string) :
  FAILED (QueryInterface dbgclient) = false ->
  split_args args = a0 :: rest ->
  cometa dbgclient args s =
    if String.eqb a0 "index" then
      match rest with
      | [] => store_reply s (cometa_index (get_metadata s) None)
      | a1 :: _ => store_reply s (cometa_index (get_metadata s) (Some (widen a1)))
      end
    else if String.eqb a0 "save" then
      match rest with
      | [a1] => store_reply s (cometa_save (get_metadata s) (widen a1))
      | _ => meta_error s meta_invalid_arguments
      end
    else if String.eqb a0 "showi" then
      match rest with
      | [a1] =>
          match guid_of a1 with
          | Some iid =>
              mkMetaReply (Returned S_OK) s (show_interface (get_metadata s) iid)
          | None => meta_error s incorrect_iid_format
          end
      | _ => meta_error s meta_invalid_arguments
      end
    else if String.eqb a0 "showc" then
      match rest with
      | [a1] =>
          match guid_of a1 with
          | Some clsid =>
              mkMetaReply (Returned S_OK) s (show_class (get_metadata s) clsid)
          | None => meta_error s incorrect_clsid_format
          end
      | _ => meta_error s meta_invalid_arguments
      end
    else meta_error s unknown_subcommand.
Proof.
  intros Hq Hs. unfold cometa. rewrite Hq, Hs.
  destruct (String.eqb a0 "index"); [reflexivity|].
  destruct (String.eqb a0 "save"); [reflexivity|].
  destruct (String.eqb a0 "showi").
  { destruct rest as [|a1 [|]]; try reflexivity. unfold guid_of.
    destruct (try_parse_guid (widen a1)) as [hr g].
    destruct (SUCCEEDED hr); reflexivity. }
  destruct (String.eqb a0 "showc"); [|reflexivity].
  destruct rest as [|a1 [|]]; try reflexivity. unfold guid_of.
  destruct (try_parse_guid (widen a1)) as [hr g].
  destruct (SUCCEEDED hr); reflexivity.
Qed.

(** X19: [cometa] answers every malformed command line with E_INVALIDARG,
    one error line, and an untouched session: no token at all, [save],
    [showi] or [showc] with a number of operands other than one, an unknown
    subcommand, or a GUID operand that does not parse. *)
Theorem cometa_argument_errors
    (dbgclient : IDebugClient) (args : string) (s : dbgsession)
    (a0 : string) (rest : list string) :
  FAILED (QueryInterface dbgclient) = false ->
  (split_args args = [] ->
   cometa dbgclient args s = meta_error s meta_invalid_arguments) /\
  (split_args args = a0 :: rest ->
   (In a0 ["save"; "showi"; "showc"] ->
    length rest <> 1%nat ->
    cometa dbgclient args s = meta_error s meta_invalid_arguments) /\
   (~ In a0 ["index"; "save"; "showi"; "showc"] ->
    cometa dbgclient args s = meta_error s unknown_subcommand) /\
   (forall a1 : string,
      rest = [a1] ->
      guid_of a1 = None ->
      (a0 = "showi" -> cometa dbgclient args s = meta_error s incorrect_iid_format) /\
      (a0 = "showc" ->
       cometa dbgclient args s = meta_error s incorrect_clsid_format))).
Proof.
  intros Hq. split.
  - intros Hs. unfold cometa. rewrite Hq, Hs. reflexivity.
  - intros Hs. rewrite (cometa_tokens _ _ _ _ _ Hq Hs). split; [|split].
    + intros Hin Hlen. simpl in Hin.
      destruct Hin as [<- | [<- | [<- | []]]]; simpl;
        destruct rest as [|a1 [|]]; simpl in Hlen; try reflexivity; lia.
    + intros Hnot. simpl in Hnot.
      repeat match goal with
      | |- context [String.eqb a0 ?x] =>
          destruct (String.eqb_spec a0 x); [exfalso; apply Hnot; auto 10|]
      end.
      reflexivity.
    + intros a1 -> Hg. split; intros ->; simpl; rewrite Hg; reflexivity.
Qed.



(** X21: [cometa] works on the metadata store alone. It never changes the
    active monitor, and what it returns and prints is the same whatever
    monitor is attached, or none. *)
Theorem cometa_ignores_monitor
    (dbgclient : IDebugClient) (args : string) (s : dbgsession)
    (m : option comonitor) :
  active_monitor (meta_session (cometa dbgclient args s)) = active_monitor s /\
  cometa dbgclient args (with_monitor s m) =
    mkMetaReply (meta_returned (cometa dbgclient args s))
      (with_monitor (meta_session (cometa dbgclient args s)) m)
      (meta_printed (cometa dbgclient args s)).
Proof.
  unfold cometa.
  destruct (FAILED (QueryInterface dbgclient)); [split; reflexivity|].
  destruct (split_args args) as [|a0 rest]; [split; reflexivity|].
  destruct (String.eqb a0 "index").
  { destruct rest; split; reflexivity. }
  destruct (String.eqb a0 "save").
  { destruct rest as [|a1 [|]]; split; reflexivity. }
  destruct (String.eqb a0 "showi").
  { destruct rest as [|a1 [|]]; try (split; reflexivity).
    destruct (try_parse_guid (widen a1)) as [hr g].
    destruct (SUCCEEDED hr); split; reflexivity. }
  destruct (String.eqb a0 "showc"); [|split; reflexivity].
  destruct rest as [|a1 [|]]; try (split; reflexivity).
  destruct (try_parse_guid (widen a1)) as [hr g].
  destruct (SUCCEEDED hr); split; reflexivity.
Qed.

End CometaFacts.

Section WithoutControl.
Context {codec : GuidCodec} {dbg : Debugger} {store : MetadataStore}.

(** X9: when the client cannot provide [IDebugControl4], each of the six
    commands returns the HRESULT of that [QueryInterface], prints nothing
    and leaves the session as it was, whatever its arguments; no argument
    is converted, so nothing is thrown either. *)
Theorem handlers_without_control
    (dbgclient : IDebugClient) (args : string) (s : dbgsession) :
  FAILED (QueryInterface dbgclient) = true ->
  let refused := mkReply (Returned (QueryInterface dbgclient)) s [] in
  cometa dbgclient args s = mkMetaReply (Returned (QueryInterface dbgclient)) s [] /\
  cobp dbgclient args s = refused /\
  cobl dbgclient args s = refused /\
  cobd dbgclient args s = refused /\
  coreg dbgclient args s = refused /\
  comon dbgclient args s = refused.
Proof.
  intros Hq. unfold cometa, cobp, cobl, cobd, coreg, comon, with_control.
  rewrite Hq. repeat split.
Qed.

End WithoutControl.

Section CometaClasses.
Context {codec : GuidCodec} {store : MetadataStore}.

(** X23: [cometa showc] with a CLSID that parses always returns S_OK and
    leaves the session as it was. Its first line says whether the metadata
    knows the class, and it lists one line for each vtable registered for
    the CLSID, with the name of the interface when the metadata has one. *)
Theorem cometa_showc
    (dbgclient : IDebugClient) (args : string) (s : dbgsession)
    (a1 : string) (clsid : CLSID) :
  FAILED (QueryInterface dbgclient) = false ->
  split_args args = ["showc"; a1] ->
  guid_of a1 = Some clsid ->
  let r := cometa dbgclient args s in
  let cometa := get_metadata s in
  meta_returned r = Returned S_OK /\
  meta_session r = s /\
  head (meta_printed r) =
    Some (normal (match resolve_class cometa clsid with
                  | Some coclass => found_class clsid (coclass_name coclass)
                  | None => class_not_found clsid
                  end)) /\
  (forall module is64 iid iid_name vtbl,
     In (normal (vtable_of_interface_line module is64 iid iid_name vtbl))
        (meta_printed r) <->
     In (module, iid, is64, vtbl) (find_vtables_by_clsid cometa clsid) /\
     iid_name = resolve_type_name cometa iid) /\
  length (meta_printed r) = (2 + length (find_vtables_by_clsid cometa clsid))%nat.
Proof.
  intros Hq Hs Hg r cometa'. subst r.
  rewrite (cometa_tokens _ _ _ _ _ Hq Hs). simpl. rewrite Hg. simpl.
  fold cometa'. split; [reflexivity|]. split; [reflexivity|].
  unfold show_class. split; [|split].
  - destruct (resolve_class cometa' clsid); reflexivity.
  - intros module is64 iid iid_name vtbl. rewrite in_app_iff. split.
    + intros [Hhead | Htail].
      * exfalso. destruct (resolve_class cometa' clsid); simpl in Hhead;
          destruct Hhead as [Hbad | []]; discriminate.
      * simpl in Htail. destruct Htail as [Hbad | Hrest]; [discriminate|].
        apply in_map_iff in Hrest as ([[[m i] b] v] & E & Hin).
        unfold normal in E. injection E as -> -> -> <- ->. auto.
    + intros [Hin ->]. right. simpl. right. apply in_map_iff.
      exists (module, iid, is64, vtbl). split; [reflexivity|exact Hin].
  - rewrite length_app. simpl. rewrite length_map.
    destruct (resolve_class cometa' clsid); reflexivity.
Qed.

End CometaClasses.

(** ** Extension start-up *)

(** X22: [DebugExtensionInitialize] always succeeds with no flags, and the
    version it reports fits 32 bits with the major number in its upper half
    and the minor number in its lower half, each cut to 16 bits. *)
Theorem initialize_packs_version (major minor : Z) :
  let r := DebugExtensionInitialize major minor in
  init_hr r = S_OK /\
  flags r = 0 /\
  Z.shiftr (version r) 16 = major mod 2 ^ 16 /\
  Z.land (version r) 0xffff = minor mod 2 ^ 16 /\
  version r = (major mod 2 ^ 16) * 2 ^ 16 + minor mod 2 ^ 16 /\
  0 <= version r < 2 ^ 32.
Proof.
  cbv zeta. unfold DebugExtensionInitialize. simpl init_hr. simpl flags.
  simpl version. unfold DEBUG_EXTENSION_VERSION.
  change 0xffff with (Z.ones 16).
  rewrite !Z.land_ones by lia.
  set (a := major mod 2 ^ 16). set (b := minor mod 2 ^ 16).
  assert (Ha : 0 <= a < 2 ^ 16) by (apply Z.mod_pos_bound; lia).
  assert (Hb : 0 <= b < 2 ^ 16) by (apply Z.mod_pos_bound; lia).
  assert (Hhi : Z.shiftr (Z.lor (Z.shiftl a 16) b) 16 = a).
  { rewrite Z.shiftr_lor, Z.shiftr_shiftl_l by lia.
    replace (16 - 16) with 0 by lia. rewrite Z.shiftl_0_r.
    rewrite (Z.shiftr_div_pow2 b) by lia.
    rewrite Z.div_small by lia. apply Z.lor_0_r. }
  assert (Hlo : Z.lor (Z.shiftl a 16) b mod 2 ^ 16 = b).
  { rewrite <- Z.land_ones by lia.
    rewrite Z.land_lor_distr_l, !Z.land_ones by lia.
    rewrite Z.shiftl_mul_pow2 by lia.
    rewrite Z.mod_mul by lia. rewrite Z.mod_small by lia. apply Z.lor_0_l. }
  assert (Hv : Z.lor (Z.shiftl a 16) b = a * 2 ^ 16 + b).
  { rewrite (Z.div_mod (Z.lor (Z.shiftl a 16) b) (2 ^ 16)) by lia.
    rewrite <- Z.shiftr_div_pow2, Hhi by lia.
    rewrite Hlo. lia. }
  rewrite Hhi, Hlo, Hv. clearbody a b.
  change (2 ^ 16) with 65536 in *. change (2 ^ 32) with 4294967296.
  repeat split; lia.
Qed.

(** ** The further statements on concrete command lines *)

Section ConcreteEdges.
Import Sample.
#[local] Existing Instance codec.
#[local] Existing Instance debugger.
#[local] Existing Instance SampleStore.store.

Lemma split_args_tokens_witness :
  "-i" <> "" /\
  forall x : ascii,
    In x (list_ascii_of_string "-i") ->
    In x (list_ascii_of_string "attach '-i' x").
Proof.
  apply (split_args_tokens "attach '-i' x" "-i").
  vm_compute. right. left. reflexivity.
Defined.

Lemma split_args_unquoted_witness :
  Forall (fun t => bare t = true) (split_args "attach -i  x,y") /\
  String.concat "" (split_args "attach -i  x,y") = "attach-ixy".
Proof. apply (split_args_unquoted "attach -i  x,y"). reflexivity. Defined.

Lemma split_args_at_separator_witness :
  split_args ("attach" +:+ String "," "'a b' c") =
    split_args "attach" ++ split_args "'a b' c".
Proof. apply (split_args_at_separator "attach" "," "'a b' c"); reflexivity. Defined.

Lemma split_args_join_witness :
  split_args (join "," ["attach"; "-i"; CLSID_sample_text]) =
    ["attach"; "-i"; CLSID_sample_text].
Proof.
  apply (split_args_join "," ["attach"; "-i"; CLSID_sample_text]); reflexivity.
Defined.

Lemma split_args_quoted_witness :
  split_args (String dquote ("my file.db" +:+ String dquote " x")) =
    ["my file.db"] ++ split_args " x" /\
  split_args (String dquote "my file.db") = ["my file.db"].
Proof.
  apply (split_args_quoted dquote "my file.db" " x"); reflexivity.
Defined.

Lemma parse_filter_no_filter_iff_witness :
  parse_filter ["F9A2C1D4-0B3E-4F67-8A9B-1C2D3E4F5A6"; "verbose"] = no_filter.
Proof.
  apply (parse_filter_no_filter_iff
           ["F9A2C1D4-0B3E-4F67-8A9B-1C2D3E4F5A6"; "verbose"]).
  split; reflexivity.
Defined.

Lemma parse_filter_same_tokens_witness :
  parse_filter [CLSID_sample_text; IID_IUnknown_text; CLSID_sample_text] =
    parse_filter [IID_IUnknown_text; CLSID_sample_text] /\
  parse_filter
    (["-i"; "x"] ++ "-e" :: [CLSID_sample_text; IID_IUnknown_text; CLSID_sample_text]) =
    parse_filter ([] ++ "-e" :: [IID_IUnknown_text; CLSID_sample_text]).
Proof.
  pose proof (parse_filter_same_tokens
                [CLSID_sample_text; IID_IUnknown_text; CLSID_sample_text]
                [IID_IUnknown_text; CLSID_sample_text] eq_refl) as Hsame.
  destruct Hsame as [Hplain Hflag].
  - intros t. simpl. tauto.
  - split; [exact Hplain|]. apply Hflag. reflexivity.
Defined.

Lemma print_filter_lists_set_witness :
  exists lines,
    print_filter (excluding_filter {[CLSID_sample]}) =
      (DEBUG_OUTPUT_NORMAL, excluding_header) :: lines /\
    length lines = size ({[CLSID_sample]} : gset CLSID).
Proof.
  destruct (proj2 (print_filter_lists_set {[CLSID_sample]})
              (excluding_filter {[CLSID_sample]}) excluding_header
              (or_intror (conj eq_refl eq_refl)))
    as (lines & Hp & _ & Hlen & _).
  exists lines. split; assumption.
Defined.

Lemma handlers_without_control_witness :
  cobd (mkClient E_FAIL) "abc" (attached no_filter)
    = mkReply (Returned E_FAIL) (attached no_filter) [].
Proof.
  apply (handlers_without_control (mkClient E_FAIL) "abc" (attached no_filter)).
  reflexivity.
Defined.

Lemma cobd_without_number_witness :
  cobd client ("  " +:+ "") (attached no_filter)
    = mkReply (Thrown invalid_argument) (attached no_filter) [] /\
  cobd client (" " +:+ "#1") (attached no_filter)
    = mkReply (Thrown invalid_argument) (attached no_filter) [].
Proof.
  split.
  - apply (cobd_without_number client "  " "" (attached no_filter)
             (observed no_filter)); try reflexivity.
    left. reflexivity.
  - apply (cobd_without_number client " " "#1" (attached no_filter)
             (observed no_filter)); try reflexivity.
    right. exists "#"%char, "1". repeat split; discriminate.
Defined.

Lemma numbers_out_of_range_witness :
  cobp client (command_line "18446744073709551616") (attached no_filter)
    = mkReply (Thrown out_of_range) (attached no_filter) [] /\
  coreg client (command_line "18446744073709551616") (attached no_filter)
    = mkReply (Thrown out_of_range) (attached no_filter) [].
Proof.
  pose proof (numbers_out_of_range client (command_line "18446744073709551616")
                (attached no_filter) (observed no_filter)
                CLSID_sample_text IID_IUnknown_text "18446744073709551616" []
                CLSID_sample IID_IUnknown (2 ^ 64)
                eq_refl eq_refl eq_refl eq_refl eq_refl eq_refl)
    as (Hcobp & _ & Hcoreg).
  split; [apply Hcobp|apply Hcoreg]; vm_compute; discriminate.
Defined.

Lemma numeric_prefix_is_used_witness :
  cobp client (command_line "2nd") (attached no_filter) =
    monitor_reply (attached no_filter)
      (create_cobreakpoint meta (observed no_filter) CLSID_sample IID_IUnknown
         (ByIndex 2)) /\
  cobd client ("2" +:+ String " " "junk") (attached no_filter) =
    monitor_reply (attached no_filter) (remove_cobreakpoint (observed no_filter) 2).
Proof.
  pose proof (numeric_prefix_is_used client (command_line "2nd")
                (attached no_filter) (observed no_filter)
                CLSID_sample_text IID_IUnknown_text "2nd" []
                CLSID_sample IID_IUnknown 2 "n"%char "d"
                eq_refl eq_refl eq_refl eq_refl eq_refl)
    as Hprefix.
  destruct Hprefix as (Hcobp & _ & _); [vm_compute; split; reflexivity|reflexivity|].
  pose proof (numeric_prefix_is_used client (command_line "2")
                (attached no_filter) (observed no_filter)
                CLSID_sample_text IID_IUnknown_text "2" []
                CLSID_sample IID_IUnknown 2 " "%char "junk"
                eq_refl eq_refl eq_refl eq_refl eq_refl)
    as Hcobd.
  destruct Hcobd as (_ & _ & Hcobd); [vm_compute; split; reflexivity|reflexivity|].
  split; [apply Hcobp; reflexivity|exact Hcobd].
Defined.

Lemma cobp_coreg_token_count_witness :
  cobp client CLSID_sample_text (attached no_filter)
    = error_reply E_INVALIDARG (attached no_filter) invalid_arguments_error /\
  coreg client (command_line "4096 and more") (attached no_filter)
    = coreg client (command_line "4096") (attached no_filter).
Proof.
  pose proof (cobp_coreg_token_count client CLSID_sample_text (attached no_filter)
                eq_refl) as [Hshort _].
  pose proof (cobp_coreg_token_count client (command_line "4096 and more")
                (attached no_filter) eq_refl) as [_ Hlong].
  split.
  - apply Hshort. vm_compute. lia.
  - apply (Hlong (command_line "4096") CLSID_sample_text IID_IUnknown_text "4096"
             ["and"; "more"]); reflexivity.
Defined.

Lemma cobp_coreg_malformed_guid_witness :
  cobp client "IUnknown IUnknown 2" (attached no_filter)
    = mkReply (Returned E_INVALIDARG) (attached no_filter) [] /\
  coreg client (CLSID_sample_text +:+ " IUnknown 4096") (attached no_filter)
    = mkReply (Returned E_INVALIDARG) (attached no_filter) [].
Proof.
  pose proof (cobp_coreg_malformed_guid client "IUnknown IUnknown 2"
                (attached no_filter) "IUnknown" "IUnknown" "2" []
                E_INVALIDARG GUID_NULL eq_refl eq_refl eq_refl) as [Hfirst _].
  pose proof (cobp_coreg_malformed_guid client
                (CLSID_sample_text +:+ " IUnknown 4096")
                (attached no_filter) CLSID_sample_text "IUnknown" "4096" []
                E_INVALIDARG GUID_NULL eq_refl eq_refl eq_refl) as [_ Hsecond].
  split.
  - apply Hfirst. reflexivity.
  - apply (Hsecond CLSID_sample); reflexivity.
Defined.

Lemma comon_needs_attach_witness :
  comon client "detach" fresh = error_reply E_FAIL fresh monitor_not_enabled_error.
Proof.
  apply (comon_needs_attach client "detach" fresh "detach" []);
    try reflexivity.
  discriminate.
Defined.

Lemma comon_subcommands_attached_witness :
  comon client "Status" (attached no_filter)
    = error_reply E_INVALIDARG (attached no_filter) invalid_arguments_error /\
  head (printed (comon client "status now" (attached no_filter)))
    = Some (DEBUG_OUTPUT_NORMAL, status_line false).
Proof.
  pose proof (comon_subcommands_attached client "Status" (attached no_filter)
                (observed no_filter) "Status" [] eq_refl eq_refl eq_refl)
    as [Hunknown _].
  pose proof (comon_subcommands_attached client "status now" (attached no_filter)
                (observed no_filter) "status" ["now"] eq_refl eq_refl eq_refl)
    as [_ Hstatus].
  split.
  - apply Hunknown. simpl. intros [H | [H | [H | [H | [H | []]]]]]; discriminate.
  - apply (Hstatus eq_refl).
Defined.

Lemma blank_arguments_witness :
  split_args " , " = [] /\
  comon client " , " (attached no_filter)
    = error_reply E_INVALIDARG (attached no_filter) invalid_arguments_error.
Proof.
  pose proof (blank_arguments client " , " (attached no_filter) eq_refl eq_refl)
    as (Hs & Hcomon & _).
  split; assumption.
Defined.

Lemma cometa_argument_errors_witness :
  cometa client "" fresh = meta_error fresh meta_invalid_arguments /\
  cometa client "save" fresh = meta_error fresh meta_invalid_arguments /\
  cometa client "list" fresh = meta_error fresh unknown_subcommand /\
  cometa client "showi IUnknown" fresh = meta_error fresh incorrect_iid_format.
Proof.
  pose proof (cometa_argument_errors client "" fresh "" [] eq_refl) as [Hnone _].
  pose proof (cometa_argument_errors client "save" fresh "save" [] eq_refl)
    as [_ Hsave].
  pose proof (cometa_argument_errors client "list" fresh "list" [] eq_refl)
    as [_ Hlist].
  pose proof (cometa_argument_errors client "showi IUnknown" fresh "showi"
                ["IUnknown"] eq_refl) as [_ Hshow].
  split; [apply Hnone; reflexivity|].
  split.
  { destruct (Hsave eq_refl) as (Hcount & _ & _).
    apply Hcount; [simpl; auto|simpl; lia]. }
  split.
  { destruct (Hlist eq_refl) as (_ & Hunknown & _).
    apply Hunknown. simpl. intros [H | [H | [H | [H | []]]]]; discriminate. }
  destruct (Hshow eq_refl) as (_ & _ & Hguid).
  apply (Hguid "IUnknown" eq_refl eq_refl). reflexivity.
Defined.


Lemma cometa_showc_witness :
  meta_printed (cometa client ("showc " +:+ CLSID_sample_text) fresh) =
    [normal (class_not_found CLSID_sample);
     normal vtables_for_clsid_header;
     normal (vtable_of_interface_line "combase" true IID_IUnknown
               (Some "IUnknown") 140700000000000)] /\
  length (meta_printed (cometa client ("showc " +:+ CLSID_sample_text) fresh)) = 3%nat.
Proof.
  pose proof (cometa_showc client ("showc " +:+ CLSID_sample_text) fresh
                CLSID_sample_text CLSID_sample eq_refl eq_refl eq_refl)
    as (_ & _ & _ & _ & Hlen).
  split; [reflexivity|exact Hlen].
Defined.

End ConcreteEdges.

(** ** Quotations inside a token *)

Section Quotations.

Lemma tokens_from_plain_prefix (cs rest : list ascii) (tok : string) :
  forallb is_plain cs = true ->
  tokens_from NUL tok (cs ++ rest) =
    tokens_from NUL (tok +:+ string_of_list_ascii cs) rest.
Proof.
  revert tok. induction cs as [|c cs IH]; intros tok Hcs.
  - simpl. rewrite append_nil_r. reflexivity.
  - simpl in Hcs. apply andb_prop in Hcs as [Hc Hcs]. unfold is_plain in Hc.
    apply andb_prop in Hc as [Hq Hs].
    apply negb_true_iff in Hq. apply negb_true_iff in Hs.
    rewrite <- app_comm_cons, (tokens_from_unquoted_step c _ tok Hq), Hs.
    rewrite (IH _ Hcs). unfold push_back. rewrite append_assoc. reflexivity.
Qed.

Lemma tokens_from_open_quote (q : ascii) (tok : string) (rest : list ascii) :
  is_quote q = true -> tokens_from NUL tok (q :: rest) = tokens_from q tok rest.
Proof. unfold is_quote. intros Hq. simpl. rewrite Hq. reflexivity. Qed.

(** X5: a quotation mark (single or double) met outside a quotation opens
    one that runs to the next mark of the same kind. It does not start a
    new token: the characters up to the closing mark, separators and the
    other kind of mark included, are appended to the token in progress,
    whose plain characters [p] stand directly before the mark ([p] is empty
    at the start of a token), and the closing mark ends that token. So
    p, mark, body, mark, tail gives the token p body followed by the tokens
    of tail, and no token when p and body are both empty. A quotation that
    is never closed runs to the end of the text. The same holds after any
    unquoted text that ends in a separator. *)
Theorem split_args_quotation (p : string) (q : ascii) (body tail : string) :
  forallb is_plain (list_ascii_of_string p) = true ->
  is_quote q = true ->
  forallb (fun c => negb (Ascii.eqb c q)) (list_ascii_of_string body) = true ->
  let token := if is_empty (p +:+ body) then [] else [p +:+ body] in
  split_args (p +:+ String q (body +:+ String q tail)) = token ++ split_args tail /\
  split_args (p +:+ String q body) = token /\
  forall (a : string) (sep : ascii),
    unquoted a = true ->
    is_separator sep = true ->
    split_args (a +:+ String sep (p +:+ String q (body +:+ String q tail))) =
      split_args a ++ token ++ split_args tail.
Proof.
  intros Hp Hq Hbody token.
  destruct (tokens_from_quoted (list_ascii_of_string body) q p Hq Hbody)
    as [Hclosed Hopen].
  rewrite string_of_list_ascii_of_string in Hclosed, Hopen.
  assert (Hfirst : split_args (p +:+ String q (body +:+ String q tail)) =
                   token ++ split_args tail).
  { rewrite !split_args_tokens_from, chars_app. simpl list_ascii_of_string.
    rewrite chars_app. simpl list_ascii_of_string.
    rewrite (tokens_from_plain_prefix _ _ "" Hp). simpl String.append.
    rewrite string_of_list_ascii_of_string.
    rewrite (tokens_from_open_quote q p _ Hq), Hclosed. reflexivity. }
  split; [exact Hfirst|]. split.
  - rewrite split_args_tokens_from, chars_app. simpl list_ascii_of_string.
    rewrite (tokens_from_plain_prefix _ _ "" Hp). simpl String.append.
    rewrite string_of_list_ascii_of_string.
    rewrite (tokens_from_open_quote q p _ Hq), Hopen. reflexivity.
  - intros a sep Ha Hsep. rewrite <- Hfirst.
    rewrite !split_args_tokens_from, chars_app. simpl list_ascii_of_string.
    apply tokens_from_app_separator; assumption.
Qed.

End Quotations.

(** ** The selector of cobp on concrete command lines *)

Section ConcreteSelectors.
Import Sample.
#[local] Existing Instance codec.
#[local] Existing Instance debugger.

Lemma split_args_quotation_witness :
  split_args ("ab" +:+ String squote ("cd ef" +:+ String squote "gh")) =
    ["abcd ef"; "gh"] /\
  split_args ("x" +:+ String dquote "my file.db") = ["xmy file.db"] /\
  split_args
    ("save" +:+ String " " ("" +:+ String dquote ("my file.db" +:+ String dquote ""))) =
    ["save"; "my file.db"].
Proof.
  pose proof (split_args_quotation "ab" squote "cd ef" "gh"
                eq_refl eq_refl eq_refl) as (Hinside & _ & _).
  pose proof (split_args_quotation "x" dquote "my file.db" ""
                eq_refl eq_refl eq_refl) as (_ & Hopen & _).
  pose proof (split_args_quotation "" dquote "my file.db" ""
                eq_refl eq_refl eq_refl) as (_ & _ & Hafter).
  split; [exact Hinside|]. split; [exact Hopen|].
  exact (Hafter "save" " "%char eq_refl eq_refl).
Defined.


End ConcreteSelectors.
